(** * MonoQ Bot RBI front end: the orchestration core of [main.js]

    A shallow embedding of [src/frontend/static/js/main.js]: the result
    store ([updateResult]), the polling session ([startPolling],
    [handlePollingError], [showError]), the submit listener of
    [analyzeForm], the phase timeline ([updatePhase], [processPhase]),
    [cycleMessages] and [copyToClipboard].

    Modelling conventions.
    - A DOM subtree is a rose tree ([node]); an element carries its tag, its
      [id] attribute, its class list, its other attributes and its children.
    - Assigning [innerHTML] from a template literal is modelled by the tree
      the template parses to, and the whitespace that only lays out a
      template is left out.  The fields of a result entry that a template
      interpolates are given by what the parser makes of them in their
      place: an entry may carry markup, with ids and classes of its own.
    - [document.getElementById] for a [strategy-*] id is searched in the
      subtree of [#resultsContent], the only place where the script creates
      such ids; the static page has none of them.
    - The callbacks of timers and promises are functions on the state they
      touch; the order in which they run is given as a list of events.  The
      submit listener is cut where it waits for its request, so that
      callbacks of a live timer can run in between. *)

From Stdlib Require Import List String Ascii Bool Arith Lia.
From Stdlib Require DecimalString.
Import ListNotations.
Local Open Scope string_scope.
Local Open Scope list_scope.

Set Warnings "-register-all".

(** ** DOM trees *)

Module Dom.

Inductive node : Type :=
| Text (s : string)
| Comment (s : string)
| Elem (tag : string) (id : option string) (classes : list string)
       (attrs : list (string * string)) (children : list node).

Definition node_id (n : node) : option string :=
  match n with Elem _ i _ _ _ => i | _ => None end.

Definition node_classes (n : node) : list string :=
  match n with Elem _ _ c _ _ => c | _ => [] end.

Definition node_children (n : node) : list node :=
  match n with Elem _ _ _ _ ch => ch | _ => [] end.

(** [el.innerHTML = ...] on an element. *)
Definition set_children (ch : list node) (n : node) : node :=
  match n with Elem t i c a _ => Elem t i c a ch | _ => n end.

Definition mem (x : string) (l : list string) : bool :=
  existsb (String.eqb x) l.

(** [el.classList.add(c)]: a token already present is not added again. *)
Definition classList_add (c : string) (l : list string) : list string :=
  if mem c l then l else l ++ [c].

(** [el.classList.remove(c)]. *)
Definition classList_remove (c : string) (l : list string) : list string :=
  filter (fun x => negb (String.eqb x c)) l.

Definition add_class (c : string) (n : node) : node :=
  match n with Elem t i cl a ch => Elem t i (classList_add c cl) a ch | _ => n end.

Definition has_id (i : string) (n : node) : bool :=
  match node_id n with Some j => String.eqb j i | None => false end.

(** The selector [.c]. *)
Definition has_class (c : string) (n : node) : bool :=
  mem c (node_classes n).

(** First node of a subtree, in document order, that satisfies [P]. *)
Fixpoint find_node (P : node -> bool) (n : node) : option node :=
  if P n then Some n else
  match n with
  | Elem _ _ _ _ ch =>
      (fix go (l : list node) : option node :=
         match l with
         | [] => None
         | x :: r => match find_node P x with
                     | Some y => Some y
                     | None => go r
                     end
         end) ch
  | _ => None
  end.

(** The same search over the children of a container: what
    [container.querySelector] does, and [document.getElementById] within
    the container. *)
Fixpoint find_forest (P : node -> bool) (l : list node) : option node :=
  match l with
  | [] => None
  | x :: r => match find_node P x with
              | Some y => Some y
              | None => find_forest P r
              end
  end.

(** Replace the first node satisfying [P], in document order, by the nodes
    [f n] ([[]] detaches it); [None] when no node matches. *)
Fixpoint update_node (P : node -> bool) (f : node -> list node) (n : node)
  : option (list node) :=
  if P n then Some (f n) else
  match n with
  | Elem t i c a ch =>
      match (fix go (l : list node) : option (list node) :=
               match l with
               | [] => None
               | x :: r =>
                   match update_node P f x with
                   | Some xs => Some (xs ++ r)
                   | None => match go r with
                             | Some r' => Some (x :: r')
                             | None => None
                             end
                   end
               end) ch with
      | Some ch' => Some [Elem t i c a ch']
      | None => None
      end
  | _ => None
  end.

Fixpoint update_forest (P : node -> bool) (f : node -> list node)
  (l : list node) : option (list node) :=
  match l with
  | [] => None
  | x :: r =>
      match update_node P f x with
      | Some xs => Some (xs ++ r)
      | None => match update_forest P f r with
                | Some r' => Some (x :: r')
                | None => None
                end
      end
  end.

(** All [id] attributes of a subtree, in document order. *)
Fixpoint all_ids (n : node) : list string :=
  match n with
  | Elem _ i _ _ ch =>
      (match i with Some j => [j] | None => [] end)
        ++ (fix go (l : list node) : list string :=
              match l with
              | [] => []
              | x :: r => all_ids x ++ go r
              end) ch
  | _ => []
  end.

Fixpoint all_ids_forest (l : list node) : list string :=
  match l with
  | [] => []
  | x :: r => all_ids x ++ all_ids_forest r
  end.

End Dom.
Import Dom.

(** ** ResultStore: [updateResult] *)

(** One element of [data.results], given by what the page gets to see of
    it.  The template is assigned through [innerHTML], so the browser parses
    each interpolated field as markup: a field interpolated into the
    content of an element is given by the child nodes the parser builds for
    it there (markup becomes elements, character references are decoded,
    line breaks are normalised), and a field interpolated into an attribute
    by the attribute text the parser reads.  [strategy_number] is used both
    ways: as the string the template literal of the id makes of it, which
    is assigned to [id] as it is, and as part of the two headings, where it
    is parsed ([strategy_number_html]).  A field the server left out reads
    as [undefined] and is the text [undefined].

    The fields are complete nodes: an entry whose markup does not stay in
    its place (an end tag of the template's own elements, an element or
    comment left open, a block element in the paragraph of the error text,
    a double quote in a file name) parses to a tree that no value of this
    type stands for. *)
Record result : Type := mkResult {
  strategy_number : string;
  strategy_number_html : list node;
  status : string;
  link : list node;
  strategy : list node;
  backtest : list node;
  strategy_file : string;
  backtest_file : string;
  error : list node
}.

(** A text that holds no markup, as the children of an element: one text
    node, or none when the text is empty. *)
Definition txt (s : string) : list node :=
  if String.eqb s "" then [] else [Text s].

Definition string_of_nat (n : nat) : string :=
  DecimalString.NilEmpty.string_of_uint (Nat.to_uint n).

(** [`strategy-${result.strategy_number}`] *)
Definition resultId (r : result) : string :=
  "strategy-" ++ strategy_number r.

(** Template text followed by an interpolated field: the parser joins the
    text with the text the field starts with. *)
Definition prepend_text (s : string) (l : list node) : list node :=
  match l with
  | Text t :: r => Text (s ++ t) :: r
  | _ => Text s :: l
  end.

Definition copy_button : node :=
  Elem "button" None ["copy-button"] [("onclick", "copyToClipboard(this)")]
    [Elem "i" None ["fas"; "fa-copy"] [] []].

Definition download_link (href label : string) : node :=
  Elem "a" None
    ["inline-flex"; "items-center"; "space-x-2"; "text-purple-400";
     "hover:text-purple-300"]
    [("href", href)]
    [Elem "i" None ["fas"; "fa-download"] [] [];
     Elem "span" None [] [] [Text label]].

(** A [code-block] of the template: the text and its copy button. *)
Definition code_block (content : list node) : node :=
  Elem "div" None ["code-block"] []
    [ Elem "pre" None [] [] [Elem "code" None [] [] content];
      copy_button ].

(** The template of the [result.status === 'success'] branch. *)
Definition success_layout (r : result) : list node :=
  [ Elem "div" None ["mb-4"] []
      [ Elem "h3" None ["text-xl"; "font-bold"; "mb-2"] []
          (prepend_text "📊 Strategy " (strategy_number_html r));
        Elem "p" None ["text-gray-400"; "mb-2"] []
          (prepend_text "Source: " (link r)) ];
    Comment " Strategy Section ";
    Elem "div" None ["mb-6"] []
      [ Elem "h4" None ["text-lg"; "font-semibold"; "mb-2"] []
          [Text "🎯 Strategy Analysis"];
        code_block (strategy r) ];
    Comment " Backtest Section ";
    Elem "div" None ["mb-6"] []
      [ Elem "h4" None ["text-lg"; "font-semibold"; "mb-2"] []
          [Text "📈 Backtest Implementation"];
        code_block (backtest r) ];
    Comment " Download Links ";
    Elem "div" None ["mt-4"; "flex"; "space-x-4"] []
      [ download_link ("/download/strategy/" ++ strategy_file r)
          "Download Strategy";
        download_link ("/download/backtest/" ++ backtest_file r)
          "Download Backtest" ] ].

(** The template of the [else] branch. *)
Definition error_layout (r : result) : list node :=
  [ Elem "div" None ["text-red-500"] []
      [ Elem "h3" None ["text-xl"; "font-bold"; "mb-2"] []
          (prepend_text "❌ Error Processing Strategy "
             (strategy_number_html r));
        Elem "p" None [] [] (error r) ] ].

(** The element [updateResult] creates when the id is not found. *)
Definition new_result_element (rid : string) : node :=
  Elem "div" (Some rid)
    ["bg-gray-800"; "rounded-lg"; "p-6"; "success-animation"] [] [].

(** What [updateResult] does to the element it holds. *)
Definition render (r : result) (n : node) : node :=
  if String.eqb (status r) "success"
  then set_children (success_layout r) n
  else add_class "error-animation" (set_children (error_layout r) n).

Definition getElementById (i : string) (rc : list node) : option node :=
  find_forest (has_id i) rc.

Arguments resultId : simpl never.

(** [updateResult(result)] on the children of [#resultsContent]. *)
Definition updateResult (r : result) (rc : list node) : list node :=
  let rid := resultId r in
  let rc1 := match getElementById rid rc with
             | Some _ => rc
             | None => rc ++ [new_result_element rid]
             end in
  match update_forest (has_id rid) (fun n => [render r n]) rc1 with
  | Some rc2 => rc2
  | None => rc1
  end.

(** [results.forEach(result => updateResult(result))], and any sequence
    of upserts. *)
Definition upserts (rs : list result) (rc : list node) : list node :=
  fold_left (fun acc r => updateResult r acc) rs rc.

(** Ids in the order they are first seen. *)
Fixpoint first_seen (l : list string) : list string :=
  match l with
  | [] => []
  | x :: t => x :: filter (fun y => negb (String.eqb y x)) (first_seen t)
  end.

(** The entry upserted last under the id [i]. *)
Definition last_upsert (i : string) (rs : list result) : option result :=
  find (fun r => String.eqb (resultId r) i) (rev rs).

(** ** PollingController: the session state and the polling tick *)

Definition MAX_RETRIES : nat := 10.

(** The variables closed over by the [DOMContentLoaded] listener, the parts
    of the page they point to, and the interval timers of the window. *)
Record session : Type := mkSession {
  resultsContent : list node;   (* children of [#resultsContent] *)
  spinner : list string;        (* class list of [#spinner] *)
  pollInterval : option nat;    (* [None] is [undefined] *)
  retryCount : nat;
  timers : list nat;            (* ids of the live interval timers *)
  lastTimer : nat               (* the id handed out last *)
}.

Definition set_resultsContent (rc : list node) (s : session) : session :=
  mkSession rc (spinner s) (pollInterval s) (retryCount s) (timers s) (lastTimer s).

Definition set_spinner (sp : list string) (s : session) : session :=
  mkSession (resultsContent s) sp (pollInterval s) (retryCount s) (timers s) (lastTimer s).

Definition set_retryCount (n : nat) (s : session) : session :=
  mkSession (resultsContent s) (spinner s) (pollInterval s) n (timers s) (lastTimer s).

(** [setInterval]: a fresh, positive id becomes live. *)
Definition setInterval (s : session) : nat * session :=
  let h := S (lastTimer s) in
  (h, mkSession (resultsContent s) (spinner s) (pollInterval s) (retryCount s)
        (h :: timers s) h).

(** [clearInterval(h)]: an id that is not live, or [undefined], is ignored. *)
Definition clearInterval (h : option nat) (s : session) : session :=
  match h with
  | None => s
  | Some i =>
      mkSession (resultsContent s) (spinner s) (pollInterval s) (retryCount s)
        (filter (fun j => negb (Nat.eqb j i)) (timers s)) (lastTimer s)
  end.

Definition timer_live (s : session) : bool :=
  match pollInterval s with
  | Some i => existsb (Nat.eqb i) (timers s)
  | None => false
  end.

Definition error_box (message : string) : node :=
  Elem "div" None
    ["p-4"; "bg-red-100"; "border"; "border-red-400"; "text-red-700"; "rounded"]
    [] [Text ("❌ " ++ message)].

Definition showError (message : string) (s : session) : session :=
  set_resultsContent [error_box message]
    (set_spinner (classList_add "hidden" (spinner s)) s).

Definition status_element (text : string) : node :=
  Elem "div" None ["text-purple-400"; "mt-4"; "text-center"] [] [Text text].

Definition attempt_text (message : string) (n : nat) : string :=
  message ++ " (Attempt " ++ string_of_nat n ++ "/"
          ++ string_of_nat MAX_RETRIES ++ ")".

Definition exhausted_message : string :=
  "Strategy processing is still running in the background. Your results will be saved! Please check back in a few minutes.".

(** [resultsContent.querySelector('.text-purple-400')] *)
Definition query_purple (rc : list node) : option node :=
  find_forest (has_class "text-purple-400") rc.

(** "Update or create status message": the element found by the query
    gets the text, and a new status element is appended when none is
    found. *)
Definition put_status (text : string) (rc : list node) : list node :=
  match update_forest (has_class "text-purple-400")
          (fun e => [set_children [Text text] e]) rc with
  | Some rc' => rc'
  | None => rc ++ [status_element text]
  end.

(** "Clear any existing processing messages": the element found by the
    query, if any, is removed. *)
Definition remove_processing (rc : list node) : list node :=
  match update_forest (has_class "text-purple-400") (fun _ => []) rc with
  | Some rc' => rc'
  | None => rc
  end.

Definition handlePollingError (message : string) (s : session) : session :=
  let s1 := set_retryCount (S (retryCount s)) s in
  let text := attempt_text message (retryCount s1) in
  let s2 := set_resultsContent (put_status text (resultsContent s1)) s1 in
  if Nat.leb MAX_RETRIES (retryCount s2) then
    let s3 := clearInterval (pollInterval s2) s2 in
    let s4 := set_spinner (classList_add "hidden" (spinner s3)) s3 in
    showError exhausted_message s4
  else s2.

(** How a probe of [/results] ends. *)
Inductive probe : Type :=
| Rejected (name : string)
    (* [fetch] or [response.json()] rejects with an error of this name *)
| HttpError (code : nat)
    (* [!response.ok]: the callback throws a plain [Error] *)
| Json (jstatus : string) (results : option (list result)) (is_complete : bool).
    (* the parsed body; [results] is [None] when it is not an array *)

Definition nonempty_array (res : option (list result)) : bool :=
  match res with Some (_ :: _) => true | _ => false end.

Definition array_items (res : option (list result)) : list result :=
  match res with Some l => l | None => [] end.

(** The [catch] block of the interval callback, by [error.name]. *)
Definition on_probe_error (name : string) (s : session) : session :=
  if String.eqb name "TimeoutError" || String.eqb name "AbortError"
  then handlePollingError
         "Still working on your strategy... This may take a few minutes." s
  else handlePollingError "Checking strategy progress..." s.

(** The interval callback, from the point where the probe has ended. *)
Definition pollTick (p : probe) (s : session) : session :=
  match p with
  | Rejected name => on_probe_error name s
  | HttpError _ => on_probe_error "Error" s
  | Json st res ic =>
      if String.eqb st "success" && nonempty_array res then
        let s1 := set_retryCount 0 s in
        let rc1 := remove_processing (resultsContent s1) in
        let s2 := set_resultsContent (upserts (array_items res) rc1) s1 in
        if ic then
          let s3 := clearInterval (pollInterval s2) s2 in
          set_spinner (classList_add "hidden" (spinner s3)) s3
        else s2
      else handlePollingError "Still processing your strategy..." s
  end.

Definition startPolling (s : session) : session :=
  let s1 := match pollInterval s with
            | Some (S _ as h) => clearInterval (Some h) s
            | _ => s
            end in
  let '(h, s2) := setInterval s1 in
  mkSession (resultsContent s2) (spinner s2) (Some h) (retryCount s2)
    (timers s2) (lastTimer s2).

(** The four outcomes of a tick that the design distinguishes. *)
Inductive outcome : Type :=
| SuccessResults | SuccessEmpty | TransportError | Timeout.

Definition classify (p : probe) : outcome :=
  match p with
  | Json st res _ =>
      if String.eqb st "success" && nonempty_array res
      then SuccessResults else SuccessEmpty
  | HttpError _ => TransportError
  | Rejected name =>
      if String.eqb name "TimeoutError" || String.eqb name "AbortError"
      then Timeout else TransportError
  end.

Definition is_success_results (p : probe) : bool :=
  match classify p with SuccessResults => true | _ => false end.

Definition probe_complete (p : probe) : bool :=
  match p with Json _ _ ic => ic | _ => false end.

(** A run of ticks, in the order their probes end. *)
Definition run_ticks (ps : list probe) (s : session) : session :=
  fold_left (fun acc p => pollTick p acc) ps s.

(** The ticks of [ps] at which the recurring timer goes from live to
    cleared. *)
Fixpoint teardowns (ps : list probe) (s : session) : nat :=
  match ps with
  | [] => 0
  | p :: r =>
      (if timer_live s && negb (timer_live (pollTick p s)) then 1 else 0)
      + teardowns r (pollTick p s)
  end.

(** ** PhaseSimulator: [updatePhase], [processPhase] and the timeline *)

Definition researchMessages : list string :=
  [ "📚 Reading through strategy documentation...";
    "🧮 Analyzing mathematical patterns...";
    "🔍 Identifying key trading signals...";
    "📊 Processing historical data...";
    "🎯 Defining entry and exit rules..." ].

Definition backtestMessages : list string :=
  [ "⚙️ Setting up backtesting environment...";
    "📈 Implementing trading logic...";
    "💡 Adding risk management rules...";
    "🔧 Configuring position sizing...";
    "🎚️ Fine-tuning parameters..." ].

Definition debugMessages : list string :=
  [ "🐛 Hunting for bugs...";
    "✨ Optimizing code performance...";
    "🔍 Reviewing edge cases...";
    "🧪 Running test scenarios...";
    "🎯 Finalizing implementation..." ].

Inductive phase : Type := Research | Backtest | Debug.

Definition phase_eqb (p q : phase) : bool :=
  match p, q with
  | Research, Research | Backtest, Backtest | Debug, Debug => true
  | _, _ => false
  end.

Definition all_phases : list phase := [Research; Backtest; Debug].

(** A phase panel: its class list and the children of its
    [.progress-messages] container. *)
Record phaseEl : Type := mkPhaseEl {
  pclasses : list string;
  plog : list node
}.

(** The panels [#researchPhase], [#backtestPhase] and [#debugPhase]. *)
Record page : Type := mkPage {
  researchPhase : phaseEl;
  backtestPhase : phaseEl;
  debugPhase : phaseEl
}.

Definition get_phase (p : phase) (pg : page) : phaseEl :=
  match p with
  | Research => researchPhase pg
  | Backtest => backtestPhase pg
  | Debug => debugPhase pg
  end.

Definition on_phase (p : phase) (f : phaseEl -> phaseEl) (pg : page) : page :=
  match p with
  | Research => mkPage (f (researchPhase pg)) (backtestPhase pg) (debugPhase pg)
  | Backtest => mkPage (researchPhase pg) (f (backtestPhase pg)) (debugPhase pg)
  | Debug => mkPage (researchPhase pg) (backtestPhase pg) (f (debugPhase pg))
  end.

Definition on_all_phases (f : phaseEl -> phaseEl) (pg : page) : page :=
  mkPage (f (researchPhase pg)) (f (backtestPhase pg)) (f (debugPhase pg)).

Definition on_classes (f : list string -> list string) (e : phaseEl) : phaseEl :=
  mkPhaseEl (f (pclasses e)) (plog e).

Definition set_log (l : list node) (e : phaseEl) : phaseEl :=
  mkPhaseEl (pclasses e) l.

(** [document.querySelectorAll('.processing-phase')
      .forEach(p => p.classList.remove('active'))] *)
Definition deactivate_all (pg : page) : page :=
  on_all_phases
    (fun e => if mem "processing-phase" (pclasses e)
              then on_classes (classList_remove "active") e else e) pg.

Definition updatePhase (p : phase) (status : string) (pg : page) : page :=
  let pg1 := deactivate_all pg in
  let pg2 := on_phase p (on_classes (classList_add "active")) pg1 in
  if String.eqb status "complete" then
    on_phase p (on_classes (classList_add "phase-complete")) pg2
  else if String.eqb status "error" then
    on_phase p (on_classes (classList_add "phase-error")) pg2
  else pg2.

(** The [div] that [processPhase] appends for a message. *)
Definition message_div (message : string) : node :=
  Elem "div" None
    ["progress-message"; "text-sm"; "text-purple-300"; "message-animation"] []
    [Elem "span" None ["inline-block"; "mr-2"] [] [Text "→"]; Text message].

(** The pieces of the submit continuation that touch the phase panels, cut
    at its suspension points (every [await] of a timed wait). *)
Inductive step : Type :=
| ClearAll
    (* [querySelectorAll('.progress-messages').forEach(el => el.innerHTML = '')] *)
| Begin (p : phase)
    (* [processPhase] up to its first wait *)
| Emit (p : phase) (message : string)
    (* one turn of the loop, after its wait *)
| Finish (p : phase).
    (* [updatePhase(phaseElement, 'complete')] *)

Definition exec_step (st : step) (pg : page) : page :=
  match st with
  | ClearAll => on_all_phases (set_log []) pg
  | Begin p => on_phase p (set_log []) (updatePhase p "active" pg)
  | Emit p m => on_phase p (fun e => set_log (plog e ++ [message_div m]) e) pg
  | Finish p => updatePhase p "complete" pg
  end.

Definition processPhase (p : phase) (messages : list string) : list step :=
  Begin p :: map (Emit p) messages ++ [Finish p].

(** The three [await processPhase(...)] of the submit listener. *)
Definition timeline : list step :=
  processPhase Research researchMessages
  ++ processPhase Backtest backtestMessages
  ++ processPhase Debug debugMessages.

Definition run_steps (l : list step) (pg : page) : page :=
  fold_left (fun acc st => exec_step st acc) l pg.

(** The page after each step. *)
Fixpoint trace (l : list step) (pg : page) : list page :=
  match l with
  | [] => []
  | st :: r => exec_step st pg :: trace r (exec_step st pg)
  end.

Definition is_active (p : phase) (pg : page) : bool :=
  mem "active" (pclasses (get_phase p pg)).

Definition active_phases (pg : page) : list phase :=
  filter (fun p => is_active p pg) all_phases.

Definition step_phase (st : step) : option phase :=
  match st with
  | ClearAll => None
  | Begin p | Emit p _ | Finish p => Some p
  end.

(** Two runs sharing the page: every way their steps can alternate. *)
Inductive Interleave : list step -> list step -> list step -> Prop :=
| Interleave_nil : Interleave [] [] []
| Interleave_left x l1 l2 l :
    Interleave l1 l2 l -> Interleave (x :: l1) l2 (x :: l)
| Interleave_right y l1 l2 l :
    Interleave l1 l2 l -> Interleave l1 (y :: l2) (y :: l).

(** ** The submit listener of [analyzeForm] *)

(** How the [POST /analyze] ends. *)
Inductive reply : Type :=
| SubmitRejected (name : string)            (* [fetch] or [json()] rejects *)
| SubmitHttpError (code : nat)              (* [!response.ok] *)
| SubmitJson (astatus : string) (message : string).

Definition acknowledged (r : reply) : bool :=
  match r with
  | SubmitJson st _ => String.eqb st "success"
  | _ => false
  end.

(** The listener up to [await fetch('/analyze', ...)]. *)
Definition submit_begin (s : session) : session :=
  set_retryCount 0
    (set_spinner (classList_remove "hidden" (spinner s))
       (set_resultsContent [] s)).

Definition processing_message : node :=
  Elem "div" None ["text-purple-400"; "mt-4"; "text-center"] []
    [Text "🔄 Processing your strategy... This may take a few minutes."].

(** What the listener does to the phase panels once acknowledged. *)
Definition submit_script : list step := ClearAll :: timeline.

(** The listener from the point where the request has ended
    ([await fetch] and [await response.json()], between which it touches
    nothing), up to its next wait: the session, the page, and the steps
    left for later.  [s] is the session as it is by then. *)
Definition submit_end (r : reply) (s : session) (pg : page)
  : session * page * list step :=
  if acknowledged r then
    let s1 := set_resultsContent (resultsContent s ++ [processing_message]) s in
    let s2 := startPolling s1 in
    (s2, run_steps (firstn 2 submit_script) pg, skipn 2 submit_script)
  else
    (handlePollingError "Starting strategy processing..." s, pg, []).

(** The box of [showError] is on display. *)
Definition error_shown (s : session) : bool :=
  existsb (has_class "bg-red-100") (resultsContent s).

(** ** Reading the store *)

(** A node of the store as the upserts leave it: a [div] with an id whose
    content holds no id of its own. *)
Definition result_node (n : node) : Prop :=
  exists rid cls ch,
    n = Elem "div" (Some rid) cls [] ch /\ all_ids_forest ch = [].

Definition store_wf (rc : list node) : Prop := Forall result_node rc.

(** [updateResult] on a store of result nodes, as a walk over its top
    level. *)
Fixpoint upsert_top (r : result) (rc : list node) : list node :=
  match rc with
  | [] => [render r (new_result_element (resultId r))]
  | x :: t =>
      if has_id (resultId r) x then render r x :: t
      else x :: upsert_top r t
  end.

(** The layout an entry is rendered with. *)
Definition layout_of (r : result) : list node :=
  if String.eqb (status r) "success" then success_layout r else error_layout r.

(** The rendering of the entry holds no [id] attribute: its payload has
    none in its markup. *)
Definition no_ids (r : result) : Prop := all_ids_forest (layout_of r) = [].

(** The error layout of the entry holds no element of class
    [text-purple-400]: its payload has none in its markup. *)
Definition no_status_class (r : result) : Prop :=
  find_forest (has_class "text-purple-400") (error_layout r) = None.

(** An entry rendered with the error template whose payload carries
    neither an id nor the class the status line is found by. *)
Definition plain_error (r : result) : Prop :=
  status r <> "success" /\ no_ids r /\ no_status_class r.

Definition top_ids (rc : list node) : list string :=
  flat_map (fun n => match node_id n with Some i => [i] | None => [] end) rc.

(** The node of id [i] carries the class [error-animation]. *)
Definition flagged (i : string) (rc : list node) : Prop :=
  exists n, getElementById i rc = Some n
            /\ In "error-animation" (node_classes n).

(** The message a tick that is not [success+results] hands to
    [handlePollingError]. *)
Definition retry_message (p : probe) : string :=
  match p with
  | Rejected name =>
      if String.eqb name "TimeoutError" || String.eqb name "AbortError"
      then "Still working on your strategy... This may take a few minutes."
      else "Checking strategy progress..."
  | HttpError _ => "Checking strategy progress..."
  | Json _ _ _ => "Still processing your strategy..."
  end.

(** Every live timer is the one [pollInterval] holds, and its id is
    truthy. *)
Definition single_timer (s : session) : Prop :=
  forall i, In i (timers s) -> pollInterval s = Some i /\ i <> 0.

(** ** Sample data *)

Definition sample_ok : result :=
  mkResult "1" (txt "1") "success" (txt "https://example.org/idea") (txt "buy low")
    (txt "sell high") "strategy_1.txt" "backtest_1.py" (txt "undefined").

Definition sample_err : result :=
  mkResult "1" (txt "1") "error" (txt "undefined") (txt "undefined") (txt "undefined")
    "undefined" "undefined" (txt "model overloaded").

(** Entry 1 with the strategy text [<div id=strategy-2>x</div>]. *)
Definition sample_injecting : result :=
  mkResult "1" (txt "1") "success" (txt "https://example.org/idea")
    [Elem "div" (Some "strategy-2") [] [] [Text "x"]]
    (txt "sell high") "strategy_1.txt" "backtest_1.py" (txt "undefined").

Definition fresh_session : session :=
  mkSession [] ["hidden"] None 0 [] 0.

Definition plain_panel : phaseEl := mkPhaseEl ["processing-phase"] [].

Definition fresh_page : page := mkPage plain_panel plain_panel plain_panel.

Definition session_of (x : session * page * list step) : session :=
  fst (fst x).

(** A session whose submission was acknowledged. *)
Definition started_session : session :=
  session_of (submit_end (SubmitJson "success" "") (submit_begin fresh_session)
                fresh_page).

Definition timeout_probe : probe := Rejected "TimeoutError".

(** ** What can happen to a session *)

Inductive event : Type :=
| SubmitBegin                 (* the listener runs up to its request *)
| SubmitEnd (r : reply)       (* the request ends and the listener goes on *)
| Tick (p : probe).           (* a probe ends and its callback goes on *)

Definition apply_event (s : session) (e : event) : session :=
  match e with
  | SubmitBegin => submit_begin s
  | SubmitEnd r => session_of (submit_end r s fresh_page)
  | Tick p => pollTick p s
  end.

(** The session after the events [evs], from the loaded page. *)
Definition session_after (evs : list event) : session :=
  fold_left apply_event evs fresh_session.

Definition page_of (x : session * page * list step) : page := snd (fst x).

Definition pending_of (x : session * page * list step) : list step := snd x.

Definition sample_other : result :=
  mkResult "2" (txt "2") "error" (txt "undefined") (txt "undefined") (txt "undefined")
    "undefined" "undefined" (txt "no transcript").

(** One entry has come in, the job is not complete. *)
Definition one_result_session : session :=
  pollTick (Json "success" (Some [sample_ok]) false) started_session.

(** ... and nine probes have timed out since. *)
Definition nine_retries_session : session :=
  run_ticks (repeat timeout_probe 9) one_result_session.

(** ** Reading the phase panels *)

(** The page markup gives each of the three panels the class
    [processing-phase], the one [updatePhase] selects by. *)
Definition phase_panels (pg : page) : Prop :=
  forall p, mem "processing-phase" (pclasses (get_phase p pg)) = true.

(** The phases whose panel gets [classList.add('active')] in a step. *)
Definition marks_active (st : step) : list phase :=
  match st with
  | Begin p | Finish p => [p]
  | _ => []
  end.

(** The phases [processPhase] is entered for, in order. *)
Definition begun (l : list step) : list phase :=
  flat_map (fun st => match st with Begin p => [p] | _ => [] end) l.

(** No step after a [Finish p] belongs to the phase [p]. *)
Fixpoint no_return (l : list step) : bool :=
  match l with
  | [] => true
  | st :: r =>
      match st with
      | Finish p =>
          forallb (fun st' => match step_phase st' with
                              | Some q => negb (phase_eqb q p)
                              | None => true
                              end) r
      | _ => true
      end && no_return r
  end.

(** The [active] marks after each step, from the marks [cur] before. *)
Fixpoint active_after (cur : list phase) (l : list step) : list (list phase) :=
  match l with
  | [] => []
  | st :: r =>
      let cur' := match marks_active st with
                  | p :: _ => [p]
                  | [] => cur
                  end in
      cur' :: active_after cur' r
  end.

Definition sample_ok_updated : result :=
  mkResult "1" (txt "1") "success" (txt "https://example.org/idea") (txt "buy lower")
    (txt "sell higher") "strategy_1.txt" "backtest_1.py" (txt "undefined").

Definition empty_probe : probe := Json "success" (Some []) false.

(** ** More of the DOM: tags, text and [querySelectorAll] *)

Definition has_tag (t : string) (n : node) : bool :=
  match n with
  | Elem t' _ _ _ _ => String.eqb t' t
  | _ => false
  end.

(** [node.textContent]: the text of the descendants, comments left out. *)
Fixpoint textContent (n : node) : string :=
  match n with
  | Text s => s
  | Comment _ => ""
  | Elem _ _ _ _ ch =>
      (fix go (l : list node) : string :=
         match l with
         | [] => ""
         | x :: r => String.append (textContent x) (go r)
         end) ch
  end.

(** The nodes of a subtree that satisfy [P], in document order. *)
Fixpoint select_all (P : node -> bool) (n : node) : list node :=
  (if P n then [n] else [])
    ++ match n with
       | Elem _ _ _ _ ch =>
           (fix go (l : list node) : list node :=
              match l with
              | [] => []
              | x :: r => select_all P x ++ go r
              end) ch
       | _ => []
       end.

(** [container.querySelectorAll] over the children of a container. *)
Fixpoint select_all_forest (P : node -> bool) (l : list node) : list node :=
  match l with
  | [] => []
  | x :: r => select_all P x ++ select_all_forest P r
  end.

(** ** [cycleMessages] *)

Definition funMessages : list string :=
  [ "🤖 AI Agents are cooking up some alpha...";
    "🌙 MonoQ Bot's agents are working their magic...";
    "🚀 Preparing for launch to the moon...";
    "💫 Discovering hidden patterns in the market...";
    "🎯 Optimizing strategy parameters...";
    "🔮 Predicting the future (just kidding)...";
    "🎨 Adding some artistic flair to the code...";
    "🎮 Playing 4D chess with the market...";
    "🌈 Finding the end of the rainbow...";
    "🎲 Rolling the perfect strategy..." ].

(** The element handed to [cycleMessages] and the [index] its callback
    closes over; [None] is [NaN], which [(index + 1) % 0] yields. *)
Record cycler : Type := mkCycler {
  ctext : list node;        (* children of the element *)
  cclasses : list string;   (* its class list *)
  cindex : option nat
}.

(** The state [cycleMessages] starts its interval with. *)
Definition cycle_start (children : list node) (classes : list string) : cycler :=
  mkCycler children classes (Some 0).

(** One run of the interval callback.  Reading past the array gives
    [undefined], and [textContent = undefined] empties the element. *)
Definition cycle_tick (messages : list string) (c : cycler) : cycler :=
  let message := match cindex c with
                 | Some i => nth_error messages i
                 | None => None
                 end in
  mkCycler
    (match message with Some m => txt m | None => [] end)
    (classList_add "fun-message" (classList_remove "fun-message" (cclasses c)))
    (match cindex c, List.length messages with
     | Some i, S n => Some ((i + 1) mod S n)
     | _, _ => None
     end).

Fixpoint cycle_ticks (k : nat) (messages : list string) (c : cycler) : cycler :=
  match k with
  | 0 => c
  | S k' => cycle_tick messages (cycle_ticks k' messages c)
  end.

(** ** [copyToClipboard] *)

(** [button.parentElement.querySelector('code').textContent], for the
    element [block] the button sits in; [None] when there is no [code]
    element and the read throws. *)
Definition copy_text (block : node) : option string :=
  option_map textContent (find_forest (has_tag "code") (node_children block)).

Definition check_icon : node := Elem "i" None ["fas"; "fa-check"] [] [].
Definition times_icon : node := Elem "i" None ["fas"; "fa-times"] [] [].
Definition copy_icon : node := Elem "i" None ["fas"; "fa-copy"] [] [].

(** What a pending [setTimeout] of the feedback will do. *)
Inductive restore : Type :=
| RestoreOriginal (originalIcon : list node)   (* after a copy that worked *)
| RestoreCopyIcon.                             (* after a copy that failed *)

(** The button and the feedback timers not yet fired, oldest first: all
    run after the same 2000 ms, so they fire in the order they were set. *)
Record feedback : Type := mkFeedback {
  fchildren : list node;
  fclasses : list string;
  fpending : list restore
}.

Inductive copy_event : Type :=
| WriteResolved     (* [writeText] resolves: the [then] callback runs *)
| WriteRejected     (* [writeText] rejects: the [catch] callback runs *)
| TimerFired.       (* the oldest pending timer fires *)

Definition copy_step (f : feedback) (e : copy_event) : feedback :=
  match e with
  | WriteResolved =>
      mkFeedback [check_icon] (classList_add "text-green-500" (fclasses f))
        (fpending f ++ [RestoreOriginal (fchildren f)])
  | WriteRejected =>
      mkFeedback [times_icon] (classList_add "text-red-500" (fclasses f))
        (fpending f ++ [RestoreCopyIcon])
  | TimerFired =>
      match fpending f with
      | [] => f
      | RestoreOriginal icon :: rest =>
          mkFeedback icon (classList_remove "text-green-500" (fclasses f)) rest
      | RestoreCopyIcon :: rest =>
          mkFeedback [copy_icon] (classList_remove "text-red-500" (fclasses f))
            rest
      end
  end.

Definition copy_run (es : list copy_event) (f : feedback) : feedback :=
  fold_left copy_step es f.

(** The copy button as the success layout renders it, at rest. *)
Definition rest_button : feedback :=
  mkFeedback (node_children copy_button) (node_classes copy_button) [].

(** Some entry upserted under the id [i] had a status other than
    [success]. *)
Definition error_seen (i : string) (rs : list result) : bool :=
  existsb (fun r => String.eqb (resultId r) i
                    && negb (String.eqb (status r) "success")) rs.

(** The text of a list of nodes, as [textContent] joins it. *)
Fixpoint forest_text (l : list node) : string :=
  match l with
  | [] => ""
  | x :: r => String.append (textContent x) (forest_text r)
  end.

(** * Properties *)

(** ** Unfolding equations of the tree traversals *)

Lemma find_node_elem P t i c a ch :
  find_node P (Elem t i c a ch) =
  if P (Elem t i c a ch) then Some (Elem t i c a ch) else find_forest P ch.
Proof.
  simpl. destruct (P _); [reflexivity|].
  induction ch as [|x r IH]; simpl; [reflexivity|].
  destruct (find_node P x); [reflexivity|exact IH].
Qed.

Lemma update_node_elem P f t i c a ch :
  update_node P f (Elem t i c a ch) =
  if P (Elem t i c a ch) then Some (f (Elem t i c a ch))
  else match update_forest P f ch with
       | Some ch' => Some [Elem t i c a ch']
       | None => None
       end.
Proof.
  simpl. destruct (P _); [reflexivity|].
  match goal with |- match ?g ch with _ => _ end = _ =>
    assert (E : g ch = update_forest P f ch) end.
  { induction ch as [|x r IH]; simpl; [reflexivity|].
    destruct (update_node P f x); [reflexivity|]. rewrite IH. reflexivity. }
  rewrite E. reflexivity.
Qed.

Lemma all_ids_elem t i c a ch :
  all_ids (Elem t i c a ch) =
  (match i with Some j => [j] | None => [] end) ++ all_ids_forest ch.
Proof.
  simpl. destruct i; simpl; f_equal.
  all: induction ch as [|x r IH]; simpl; [reflexivity|]; now rewrite IH.
Qed.

Lemma node_induction (P : node -> Prop) :
  (forall s, P (Text s)) ->
  (forall s, P (Comment s)) ->
  (forall t i c a ch, Forall P ch -> P (Elem t i c a ch)) ->
  forall n, P n.
Proof.
  intros HT HC HE.
  fix IH 1.
  intros [s|s|t i c a ch]; [apply HT|apply HC|].
  apply HE. induction ch as [|x r IHr]; constructor; [apply IH|exact IHr].
Qed.

(** ** The result store *)

Section Store.

Variable i : string.
Variable f : node -> list node.

Lemma no_id_no_match (n : node) :
  all_ids n = [] ->
  find_node (has_id i) n = None /\ update_node (has_id i) f n = None.
Proof.
  induction n as [s|s|t j c a ch IH] using node_induction; intros E.
  - split; reflexivity.
  - split; reflexivity.
  - rewrite all_ids_elem in E. apply app_eq_nil in E as [Ej Ech].
    destruct j as [j|]; [discriminate|].
    rewrite find_node_elem, update_node_elem.
    unfold has_id at 1 3; simpl.
    assert (F : find_forest (has_id i) ch = None
                /\ update_forest (has_id i) f ch = None).
    { clear Ej. induction IH as [|x r Hx _ IHr]; simpl in *; [split; reflexivity|].
      apply app_eq_nil in Ech as [Ex Er].
      destruct (Hx Ex) as [-> ->]. destruct (IHr Er) as [-> ->].
      split; reflexivity. }
    destruct F as [-> ->]. split; reflexivity.
Qed.

Lemma no_id_no_match_forest (l : list node) :
  all_ids_forest l = [] ->
  find_forest (has_id i) l = None /\ update_forest (has_id i) f l = None.
Proof.
  induction l as [|x r IH]; simpl; intros E; [split; reflexivity|].
  apply app_eq_nil in E as [Ex Er].
  destruct (no_id_no_match x Ex) as [-> ->].
  destruct (IH Er) as [-> ->]. split; reflexivity.
Qed.

End Store.

Lemma result_node_find (i : string) (x : node) :
  result_node x ->
  find_node (has_id i) x = if has_id i x then Some x else None.
Proof.
  intros (rid & cls & ch & -> & E).
  rewrite find_node_elem.
  destruct (has_id i _); [reflexivity|].
  apply (no_id_no_match_forest i (fun _ => []) ch E).
Qed.

Lemma result_node_update (i : string) (f : node -> list node) (x : node) :
  result_node x ->
  update_node (has_id i) f x = if has_id i x then Some (f x) else None.
Proof.
  intros (rid & cls & ch & -> & E).
  rewrite update_node_elem.
  destruct (has_id i _); [reflexivity|].
  destruct (no_id_no_match_forest i f ch E) as [_ ->]. reflexivity.
Qed.

Lemma render_id (r : result) (x : node) : node_id (render r x) = node_id x.
Proof.
  unfold render. destruct (String.eqb (status r) "success"), x; reflexivity.
Qed.

Lemma render_children (r : result) t j c a ch :
  node_children (render r (Elem t j c a ch)) = layout_of r.
Proof.
  unfold render, layout_of.
  destruct (String.eqb (status r) "success"); reflexivity.
Qed.

Lemma new_result_node (rid : string) : result_node (new_result_element rid).
Proof. eexists _, _, _. split; reflexivity. Qed.

Lemma updateResult_top (r : result) (rc : list node) :
  store_wf rc -> updateResult r rc = upsert_top r rc.
Proof.
  unfold updateResult, getElementById.
  induction 1 as [|x t Hx Ht IH]; simpl.
  - unfold has_id at 1. unfold new_result_element at 1.
    cbn [node_id]. rewrite String.eqb_refl. reflexivity.
  - rewrite (result_node_find _ _ Hx).
    destruct (has_id (resultId r) x) eqn:E.
    + simpl. rewrite (result_node_update _ _ _ Hx), E. reflexivity.
    + destruct (find_forest (has_id (resultId r)) t) eqn:F; simpl;
        rewrite (result_node_update _ _ _ Hx), E;
        destruct (update_forest _ _ _); rewrite <- IH; reflexivity.
Qed.

Lemma mem_In (x : string) (l : list string) : mem x l = true <-> In x l.
Proof.
  unfold mem. rewrite existsb_exists. split.
  - intros (y & Hy & E). apply String.eqb_eq in E. now subst.
  - intros H. exists x. split; [exact H|apply String.eqb_refl].
Qed.

Lemma mem_cons (x y : string) (l : list string) :
  mem x (y :: l) = String.eqb x y || mem x l.
Proof. reflexivity. Qed.

Lemma mem_app (x : string) (l1 l2 : list string) :
  mem x (l1 ++ l2) = mem x l1 || mem x l2.
Proof. apply existsb_app. Qed.

Lemma result_node_ids (x : node) :
  result_node x -> exists rid, node_id x = Some rid /\ all_ids x = [rid].
Proof.
  intros (rid & cls & ch & -> & E). exists rid.
  rewrite all_ids_elem, E. split; reflexivity.
Qed.

Lemma store_ids_top (rc : list node) :
  store_wf rc -> map node_id rc = map Some (all_ids_forest rc).
Proof.
  induction 1 as [|x t Hx Ht IH]; simpl; [reflexivity|].
  destruct (result_node_ids _ Hx) as (rid & -> & ->). simpl. now rewrite IH.
Qed.

Lemma getElementById_result_node (i : string) (rc : list node) (n : node) :
  store_wf rc -> getElementById i rc = Some n -> result_node n.
Proof.
  unfold getElementById.
  induction 1 as [|x t Hx Ht IH]; cbn [find_forest]; [discriminate|].
  rewrite (result_node_find _ _ Hx).
  destruct (has_id i x); [|exact IH].
  now intros [= <-].
Qed.

Lemma render_keeps_class (c : string) (r : result) (x : node) :
  In c (node_classes x) -> In c (node_classes (render r x)).
Proof.
  unfold render. destruct x as [s|s|t j cl a ch]; cbn; try tauto.
  destruct (String.eqb (status r) "success"); cbn; [tauto|].
  unfold classList_add. destruct (mem _ cl); [tauto|].
  intros H. apply in_or_app. now left.
Qed.

Lemma render_error_class (r : result) (x : node) :
  String.eqb (status r) "success" = false ->
  result_node x ->
  In "error-animation" (node_classes (render r x)).
Proof.
  intros E (rid & cls & ch & -> & _). unfold render. rewrite E. cbn.
  unfold classList_add. destruct (mem "error-animation" cls) eqn:M.
  - now apply mem_In.
  - apply in_or_app. right. now left.
Qed.

(** One upsert of an entry whose rendering holds no id. *)
Section PlainUpsert.

Variable r : result.
Hypothesis Nr : no_ids r.

Lemma render_result_node (x : node) :
  result_node x -> result_node (render r x).
Proof.
  intros (rid & cls & ch & -> & _).
  exists rid. unfold render, no_ids, layout_of in *.
  destruct (String.eqb (status r) "success"); cbn [set_children add_class];
    eexists _, _; (split; [reflexivity|exact Nr]).
Qed.

Lemma upsert_top_wf (rc : list node) :
  store_wf rc -> store_wf (upsert_top r rc).
Proof.
  induction 1 as [|x t Hx Ht IH]; simpl.
  - constructor; [|constructor].
    apply render_result_node, new_result_node.
  - destruct (has_id (resultId r) x); constructor; auto.
    now apply render_result_node.
Qed.

Lemma upsert_top_ids (rc : list node) :
  store_wf rc ->
  all_ids_forest (upsert_top r rc) =
  if mem (resultId r) (all_ids_forest rc) then all_ids_forest rc
  else all_ids_forest rc ++ [resultId r].
Proof.
  induction 1 as [|x t Hx Ht IH]; cbn [upsert_top all_ids_forest].
  - destruct (result_node_ids _ (render_result_node _ (new_result_node (resultId r))))
      as (rid & E1 & ->).
    rewrite render_id in E1. simpl in E1. now injection E1 as ->.
  - destruct (result_node_ids _ Hx) as (rid & Ei & Ea).
    unfold has_id. rewrite Ei, Ea. cbn [app]. rewrite mem_cons.
    rewrite (String.eqb_sym (resultId r) rid).
    destruct (String.eqb rid (resultId r)) eqn:E; cbn [orb all_ids_forest].
    + destruct (result_node_ids _ (render_result_node _ Hx)) as (rid' & E1 & ->).
      rewrite render_id, Ei in E1. now injection E1 as ->.
    + rewrite Ea, IH.
      destruct (mem (resultId r) (all_ids_forest t)); reflexivity.
Qed.

Lemma upsert_top_find (i : string) (rc : list node) :
  store_wf rc ->
  getElementById i (upsert_top r rc) =
  if String.eqb (resultId r) i
  then Some (render r (match getElementById i rc with
                       | Some n => n
                       | None => new_result_element i
                       end))
  else getElementById i rc.
Proof.
  unfold getElementById.
  induction 1 as [|x t Hx Ht IH]; cbn [upsert_top find_forest].
  - rewrite (result_node_find _ _ (render_result_node _ (new_result_node _))).
    unfold has_id. rewrite render_id. unfold new_result_element at 1.
    cbn [node_id].
    destruct (String.eqb (resultId r) i) eqn:E; [|reflexivity].
    apply String.eqb_eq in E. now subst i.
  - rewrite (result_node_find _ _ Hx).
    destruct (has_id (resultId r) x) eqn:E; cbn [find_forest].
    + rewrite (result_node_find _ _ (render_result_node _ Hx)).
      unfold has_id in *. rewrite render_id.
      destruct (node_id x) as [rid|]; [|discriminate].
      apply String.eqb_eq in E. subst rid.
      destruct (String.eqb (resultId r) i); reflexivity.
    + rewrite (result_node_find _ _ Hx).
      destruct (has_id i x) eqn:Ei; [|exact IH].
      unfold has_id in *. destruct (node_id x) as [rid|]; [|discriminate].
      apply String.eqb_eq in Ei. subst rid.
      now rewrite String.eqb_sym, E.
Qed.

Lemma upsert_top_lookup (i : string) (rc : list node) :
  store_wf rc ->
  option_map node_children (getElementById i (upsert_top r rc)) =
  if String.eqb (resultId r) i then Some (layout_of r)
  else option_map node_children (getElementById i rc).
Proof.
  intros H. rewrite (upsert_top_find i rc H).
  destruct (String.eqb (resultId r) i); [|reflexivity].
  cbn [option_map]. f_equal.
  destruct (getElementById i rc) as [n|] eqn:G.
  - destruct (getElementById_result_node _ _ _ H G) as (rid & cls & ch & -> & _).
    apply render_children.
  - apply render_children.
Qed.

Lemma upsert_top_flags (rc : list node) :
  String.eqb (status r) "success" = false ->
  store_wf rc -> flagged (resultId r) (upsert_top r rc).
Proof.
  intros E H. unfold flagged.
  rewrite (upsert_top_find _ _ H), String.eqb_refl.
  eexists. split; [reflexivity|].
  apply render_error_class; [exact E|].
  destruct (getElementById (resultId r) rc) eqn:G.
  - exact (getElementById_result_node _ _ _ H G).
  - apply new_result_node.
Qed.

Lemma upsert_top_keeps_flag (i : string) (rc : list node) :
  store_wf rc -> flagged i rc -> flagged i (upsert_top r rc).
Proof.
  intros H (n & G & Hn). unfold flagged.
  rewrite (upsert_top_find _ _ H), G.
  destruct (String.eqb (resultId r) i).
  - eexists. split; [reflexivity|]. now apply render_keeps_class.
  - now exists n.
Qed.

End PlainUpsert.

Lemma upserts_wf (rs : list result) (rc : list node) :
  Forall no_ids rs -> store_wf rc -> store_wf (upserts rs rc).
Proof.
  intros N. revert rc.
  induction N as [|r rs Nr _ IH]; simpl; intros rc H; [exact H|].
  apply IH. rewrite (updateResult_top _ _ H). now apply upsert_top_wf.
Qed.

Lemma filter_filter_absorb (x : string) (seen l : list string) :
  mem x seen = true ->
  filter (fun j => negb (mem j seen)) (filter (fun y => negb (String.eqb y x)) l)
  = filter (fun j => negb (mem j seen)) l.
Proof.
  intros Hx. induction l as [|y l IH]; simpl; [reflexivity|].
  destruct (String.eqb y x) eqn:E; simpl.
  - apply String.eqb_eq in E. subst y. rewrite Hx. simpl. exact IH.
  - destruct (mem y seen); simpl; now rewrite IH.
Qed.

Lemma filter_filter_snoc (x : string) (seen l : list string) :
  filter (fun j => negb (mem j (seen ++ [x]))) l
  = filter (fun j => negb (mem j seen)) (filter (fun y => negb (String.eqb y x)) l).
Proof.
  induction l as [|y l IH]; simpl; [reflexivity|].
  rewrite mem_app. cbn [mem existsb]. rewrite orb_false_r.
  destruct (String.eqb y x) eqn:E; simpl.
  - rewrite orb_true_r. simpl. exact IH.
  - rewrite orb_false_r. destruct (mem y seen); simpl; now rewrite IH.
Qed.

Lemma upserts_ids (rs : list result) (rc : list node) :
  Forall no_ids rs ->
  store_wf rc ->
  all_ids_forest (upserts rs rc) =
  all_ids_forest rc
    ++ filter (fun j => negb (mem j (all_ids_forest rc)))
         (first_seen (map resultId rs)).
Proof.
  intros N. revert rc.
  induction N as [|r rs Nr _ IH]; intros rc H; cbn [upserts fold_left map first_seen].
  - cbn [filter]. now rewrite app_nil_r.
  - rewrite (updateResult_top _ _ H).
    fold (upserts rs (upsert_top r rc)).
    rewrite (IH _ (upsert_top_wf r Nr _ H)), (upsert_top_ids r Nr _ H).
    destruct (mem (resultId r) (all_ids_forest rc)) eqn:E; cbn [filter].
    + rewrite E. cbn [negb]. now rewrite filter_filter_absorb.
    + rewrite E. cbn [negb]. rewrite <- app_assoc. cbn [app].
      now rewrite filter_filter_snoc.
Qed.

Lemma find_snoc {A} (P : A -> bool) (l : list A) (x : A) :
  find P (l ++ [x]) =
  match find P l with Some y => Some y | None => if P x then Some x else None end.
Proof.
  induction l as [|y l IH]; simpl; [reflexivity|].
  destruct (P y); [reflexivity|exact IH].
Qed.

Lemma upserts_lookup (i : string) (rs : list result) (rc : list node) :
  Forall no_ids rs ->
  store_wf rc ->
  option_map node_children (getElementById i (upserts rs rc)) =
  match last_upsert i rs with
  | Some r => Some (layout_of r)
  | None => option_map node_children (getElementById i rc)
  end.
Proof.
  unfold last_upsert, upserts. intros N.
  revert rc. induction N as [|r rs Nr _ IH]; intros rc H; cbn [fold_left rev];
    [reflexivity|].
  rewrite (updateResult_top _ _ H), (IH _ (upsert_top_wf r Nr _ H)), find_snoc.
  destruct (find _ (rev rs)); [reflexivity|].
  rewrite (upsert_top_lookup r Nr i _ H).
  destruct (String.eqb (resultId r) i); reflexivity.
Qed.

Lemma count_occ_filter_neq (x i : string) (l : list string) :
  count_occ string_dec (filter (fun y => negb (String.eqb y x)) l) i =
  if String.eqb i x then 0 else count_occ string_dec l i.
Proof.
  induction l as [|y l IH]; simpl.
  - now destruct (String.eqb i x).
  - destruct (String.eqb y x) eqn:E; simpl.
    + apply String.eqb_eq in E. subst y. rewrite IH.
      destruct (String.eqb i x) eqn:F; [reflexivity|].
      apply String.eqb_neq in F.
      destruct (string_dec x i); [congruence|reflexivity].
    + rewrite IH. destruct (String.eqb i x) eqn:F; [|reflexivity].
      apply String.eqb_eq in F. subst i. apply String.eqb_neq in E.
      destruct (string_dec y x); [congruence|reflexivity].
Qed.

Lemma first_seen_count (i : string) (l : list string) :
  count_occ string_dec (first_seen l) i = if mem i l then 1 else 0.
Proof.
  induction l as [|x l IH]; [reflexivity|].
  cbn [first_seen count_occ]. rewrite mem_cons, count_occ_filter_neq.
  destruct (String.eqb i x) eqn:E; cbn [orb].
  - apply String.eqb_eq in E. subst i.
    destruct (string_dec x x); [reflexivity|congruence].
  - apply String.eqb_neq in E.
    destruct (string_dec x i) as [e|_]; [now elim E|]. exact IH.
Qed.

Lemma filter_all (l : list string) :
  filter (fun j => negb (mem j [])) l = l.
Proof.
  induction l as [|a l IH]; [reflexivity|].
  change (a :: filter (fun j => negb (mem j [])) l = a :: l). now rewrite IH.
Qed.

Lemma upserts_keep_flag (i : string) (rs : list result) (rc : list node) :
  Forall no_ids rs ->
  store_wf rc -> flagged i rc -> flagged i (upserts rs rc).
Proof.
  unfold upserts. intros N.
  revert rc. induction N as [|r rs Nr _ IH]; intros rc H F; cbn [fold_left];
    [exact F|].
  rewrite (updateResult_top _ _ H).
  apply IH; [now apply upsert_top_wf|now apply upsert_top_keeps_flag].
Qed.

Lemma upserts_app (rs1 rs2 : list result) (rc : list node) :
  upserts (rs1 ++ rs2) rc = upserts rs2 (upserts rs1 rc).
Proof. apply fold_left_app. Qed.

Lemma layouts_differ (r r' : result) : success_layout r <> error_layout r'.
Proof. intros E. apply (f_equal (@List.length node)) in E. discriminate E. Qed.

Lemma plain_no_ids (n nh st l sg b sf bf e : string) :
  no_ids (mkResult n (txt nh) st (txt l) (txt sg) (txt b) sf bf (txt e)).
Proof.
  unfold no_ids, layout_of. cbn [status].
  destruct (String.eqb st "success").
  - unfold success_layout, code_block, txt.
    cbn [strategy_number_html link strategy backtest strategy_file
         backtest_file].
    destruct (String.eqb nh ""), (String.eqb l ""), (String.eqb sg ""),
      (String.eqb b ""); reflexivity.
  - unfold error_layout, txt. cbn [strategy_number_html error].
    destruct (String.eqb nh ""), (String.eqb e ""); reflexivity.
Qed.

Lemma plain_plain_error (n nh st l sg b sf bf e : string) :
  st <> "success" ->
  plain_error (mkResult n (txt nh) st (txt l) (txt sg) (txt b) sf bf (txt e)).
Proof.
  intros H. split; [exact H|]. split; [apply plain_no_ids|].
  unfold no_status_class, error_layout, txt. cbn [strategy_number_html error].
  destruct (String.eqb nh ""), (String.eqb e ""); reflexivity.
Qed.






(** ** The polling session *)

Lemma handlePollingError_eq (m : string) (s : session) :
  handlePollingError m s =
  let n := S (retryCount s) in
  if Nat.leb MAX_RETRIES n then
    mkSession [error_box exhausted_message]
      (classList_add "hidden" (classList_add "hidden" (spinner s)))
      (pollInterval s) n
      (timers (clearInterval (pollInterval s) s)) (lastTimer s)
  else
    mkSession (put_status (attempt_text m n) (resultsContent s))
      (spinner s) (pollInterval s) n (timers s) (lastTimer s).
Proof.
  unfold handlePollingError. cbn [set_retryCount set_resultsContent retryCount
    resultsContent spinner pollInterval timers lastTimer].
  destruct (Nat.leb MAX_RETRIES (S (retryCount s))); [|reflexivity].
  destruct s as [rc sp [h|] n ts lt]; reflexivity.
Qed.

Lemma pollTick_retry (p : probe) (s : session) :
  is_success_results p = false ->
  pollTick p s = handlePollingError (retry_message p) s.
Proof.
  unfold is_success_results, classify, pollTick, on_probe_error, retry_message.
  destruct p as [name|code|st res ic].
  - intros _. destruct (String.eqb name "TimeoutError" || String.eqb name "AbortError");
      reflexivity.
  - intros _. reflexivity.
  - destruct (String.eqb st "success" && nonempty_array res);
      [discriminate|reflexivity].
Qed.

Lemma pollTick_success (p : probe) (s : session) :
  is_success_results p = true ->
  exists st res,
    p = Json st res (probe_complete p) /\
    pollTick p s =
    let rc := upserts (array_items res) (remove_processing (resultsContent s)) in
    if probe_complete p then
      mkSession rc (classList_add "hidden" (spinner s)) (pollInterval s) 0
        (timers (clearInterval (pollInterval s) s)) (lastTimer s)
    else
      mkSession rc (spinner s) (pollInterval s) 0 (timers s) (lastTimer s).
Proof.
  unfold is_success_results, classify.
  destruct p as [name|code|st res ic].
  - destruct (String.eqb name "TimeoutError" || String.eqb name "AbortError");
      discriminate.
  - discriminate.
  - intros E. exists st, res. split; [reflexivity|].
    unfold pollTick.
    destruct (String.eqb st "success" && nonempty_array res); [|discriminate].
    cbn [probe_complete set_retryCount set_resultsContent retryCount
      resultsContent spinner pollInterval timers lastTimer].
    destruct ic; [|reflexivity].
    destruct s as [rc sp [h|] n ts lt]; reflexivity.
Qed.

Lemma cleared_not_live (i : nat) (l : list nat) :
  existsb (Nat.eqb i) (filter (fun j => negb (Nat.eqb j i)) l) = false.
Proof.
  induction l as [|j l IH]; [reflexivity|].
  cbn [filter]. destruct (Nat.eqb j i) eqn:E; cbn [negb]; [exact IH|].
  cbn [existsb]. now rewrite Nat.eqb_sym, E, IH.
Qed.

Lemma clearInterval_not_live (s : session) (s' : session) :
  pollInterval s' = pollInterval s ->
  timers s' = timers (clearInterval (pollInterval s) s) ->
  timer_live s' = false.
Proof.
  unfold timer_live. intros -> ->.
  destruct (pollInterval s) as [h|]; [|reflexivity].
  apply cleared_not_live.
Qed.

Lemma clearInterval_single (s : session) :
  single_timer s -> timers (clearInterval (pollInterval s) s) = [].
Proof.
  unfold single_timer. intros H.
  destruct (pollInterval s) as [h|] eqn:P; cbn [clearInterval timers].
  - assert (A : forall l, (forall i, In i l -> Some h = Some i /\ i <> 0) ->
                          filter (fun j => negb (Nat.eqb j h)) l = []).
    { induction l as [|j l IH]; intros Hl; [reflexivity|].
      cbn [filter]. assert (E : Some h = Some j) by (apply Hl; now left).
      injection E as <-. rewrite Nat.eqb_refl. cbn [negb].
      apply IH. intros i Hi. apply Hl. now right. }
    now apply A.
  - destruct (timers s) as [|i l]; [reflexivity|].
    destruct (H i (or_introl eq_refl)) as [E _]. discriminate E.
Qed.

Lemma clearInterval_twice (h : option nat) (s : session) :
  clearInterval h (clearInterval h s) = clearInterval h s.
Proof.
  destruct h as [i|]; [|reflexivity].
  unfold clearInterval. cbn [resultsContent spinner pollInterval retryCount
    timers lastTimer]. f_equal.
  induction (timers s) as [|j l IH]; [reflexivity|].
  cbn [filter]. destruct (Nat.eqb j i) eqn:E; cbn [negb filter]; [exact IH|].
  rewrite E. cbn [negb]. now rewrite IH.
Qed.

(** A tick never revives a timer: the live ids only shrink and the handle
    stays. *)
Lemma pollTick_timers (p : probe) (s : session) :
  pollInterval (pollTick p s) = pollInterval s
  /\ lastTimer (pollTick p s) = lastTimer s
  /\ (timers (pollTick p s) = timers s
      \/ timers (pollTick p s) = timers (clearInterval (pollInterval s) s)).
Proof.
  destruct (is_success_results p) eqn:E.
  - destruct (pollTick_success p s E) as (st & res & _ & ->).
    cbv zeta. destruct (probe_complete p); cbn; auto.
  - rewrite (pollTick_retry p s E), handlePollingError_eq.
    cbv zeta. destruct (Nat.leb _ _); cbn; auto.
Qed.

Lemma pollTick_stays_cleared (p : probe) (s : session) :
  timer_live s = false -> timer_live (pollTick p s) = false.
Proof.
  intros H. destruct (pollTick_timers p s) as (P & _ & [T|T]).
  - unfold timer_live in *. now rewrite P, T.
  - now apply (clearInterval_not_live s).
Qed.

Lemma teardowns_cleared (ps : list probe) (s : session) :
  timer_live s = false -> teardowns ps s = 0.
Proof.
  revert s. induction ps as [|p ps IH]; intros s H; [reflexivity|].
  cbn [teardowns]. rewrite H. cbn [andb].
  apply IH. now apply pollTick_stays_cleared.
Qed.

Lemma teardowns_at_most_once (ps : list probe) (s : session) :
  teardowns ps s <= 1.
Proof.
  revert s. induction ps as [|p ps IH]; intros s; cbn [teardowns]; [lia|].
  destruct (timer_live s) eqn:L; cbn [andb].
  - destruct (timer_live (pollTick p s)) eqn:L'; cbn [negb].
    + specialize (IH (pollTick p s)). lia.
    + rewrite (teardowns_cleared ps _ L'). lia.
  - rewrite (teardowns_cleared ps _ (pollTick_stays_cleared p s L)). lia.
Qed.

Lemma teardowns_app (ps1 ps2 : list probe) (s : session) :
  teardowns (ps1 ++ ps2) s = teardowns ps1 s + teardowns ps2 (run_ticks ps1 s).
Proof.
  revert s. induction ps1 as [|p ps1 IH]; intros s; [reflexivity|].
  cbn [app teardowns]. rewrite IH. unfold run_ticks. cbn [fold_left]. lia.
Qed.

Lemma teardowns_live (ps : list probe) (s : session) :
  timer_live (run_ticks ps s) = true -> teardowns ps s = 0.
Proof.
  revert s. induction ps as [|p ps IH]; intros s H; [reflexivity|].
  cbn [teardowns]. unfold run_ticks in *. cbn [fold_left] in H.
  rewrite (IH _ H).
  destruct (timer_live (pollTick p s)) eqn:L.
  - rewrite andb_false_r. reflexivity.
  - fold (run_ticks ps (pollTick p s)) in H.
    assert (F : timer_live (run_ticks ps (pollTick p s)) = false).
    { clear H IH. revert L. generalize (pollTick p s). 
      induction ps as [|q ps IHp]; intros s' L; [exact L|].
      unfold run_ticks. cbn [fold_left]. apply IHp.
      now apply pollTick_stays_cleared. }
    congruence.
Qed.

Lemma pollTick_retryCount (p : probe) (s : session) :
  retryCount (pollTick p s) =
  if is_success_results p then 0 else S (retryCount s).
Proof.
  destruct (is_success_results p) eqn:E.
  - destruct (pollTick_success p s E) as (st & res & _ & ->).
    cbv zeta. now destruct (probe_complete p).
  - rewrite (pollTick_retry p s E), handlePollingError_eq.
    cbv zeta. now destruct (Nat.leb _ _).
Qed.

Lemma hidden_added (l : list string) : In "hidden" (classList_add "hidden" l).
Proof.
  unfold classList_add. destruct (mem "hidden" l) eqn:M.
  - now apply mem_In.
  - apply in_or_app. right. now left.
Qed.

Lemma class_kept (c d : string) (l : list string) :
  In c l -> In c (classList_add d l).
Proof.
  unfold classList_add. destruct (mem d l); [tauto|].
  intros H. apply in_or_app. now left.
Qed.

Lemma exhausting_tick (p : probe) (s : session) :
  is_success_results p = false ->
  MAX_RETRIES <= S (retryCount s) ->
  pollTick p s =
  mkSession [error_box exhausted_message]
    (classList_add "hidden" (classList_add "hidden" (spinner s)))
    (pollInterval s) (S (retryCount s))
    (timers (clearInterval (pollInterval s) s)) (lastTimer s).
Proof.
  intros E H. rewrite (pollTick_retry p s E), handlePollingError_eq. cbv zeta.
  apply Nat.leb_le in H. now rewrite H.
Qed.

Lemma retrying_tick (p : probe) (s : session) :
  is_success_results p = false ->
  S (retryCount s) < MAX_RETRIES ->
  pollTick p s =
  mkSession
    (put_status (attempt_text (retry_message p) (S (retryCount s)))
       (resultsContent s))
    (spinner s) (pollInterval s) (S (retryCount s)) (timers s) (lastTimer s).
Proof.
  intros E H. rewrite (pollTick_retry p s E), handlePollingError_eq. cbv zeta.
  apply Nat.leb_gt in H. now rewrite H.
Qed.



(** ** One timer at a time *)

Lemma single_timer_shrink (s s' : session) :
  single_timer s ->
  pollInterval s' = pollInterval s ->
  (timers s' = timers s
   \/ timers s' = timers (clearInterval (pollInterval s) s)) ->
  single_timer s'.
Proof.
  intros H P [T|T]; unfold single_timer; rewrite P, T; [exact H|].
  now rewrite (clearInterval_single s H).
Qed.

Lemma pollTick_single_timer (p : probe) (s : session) :
  single_timer s -> single_timer (pollTick p s).
Proof.
  intros H. destruct (pollTick_timers p s) as (P & _ & T).
  now apply (single_timer_shrink s).
Qed.

Lemma handlePollingError_single_timer (m : string) (s : session) :
  single_timer s -> single_timer (handlePollingError m s).
Proof.
  intros H. apply (single_timer_shrink s _ H);
    rewrite handlePollingError_eq; cbv zeta;
    destruct (Nat.leb _ _); cbn; auto.
Qed.

Lemma startPolling_single_timer (s : session) :
  single_timer s -> single_timer (startPolling s).
Proof.
  intros H.
  assert (E : timers (startPolling s) = [S (lastTimer s)]
              /\ pollInterval (startPolling s) = Some (S (lastTimer s))).
  { unfold startPolling.
    destruct (pollInterval s) as [[|k]|] eqn:P.
    - cbn. destruct (timers s) as [|i l] eqn:T; [now split|].
      destruct (H i) as [A B]; [rewrite T; now left|].
      rewrite P in A. injection A as <-. now elim B.
    - pose proof (clearInterval_single s H) as C. rewrite P in C.
      cbn in *. rewrite C. now split.
    - cbn. destruct (timers s) as [|i l] eqn:T; [now split|].
      destruct (H i) as [A _]; [rewrite T; now left|].
      rewrite P in A. discriminate A. }
  destruct E as [T P]. unfold single_timer. rewrite T, P.
  intros i [<-|[]]. now split.
Qed.

Lemma session_after_single_timer (evs : list event) :
  single_timer (session_after evs).
Proof.
  unfold session_after.
  assert (G : forall s, single_timer s ->
                        single_timer (fold_left apply_event evs s)).
  { induction evs as [|e evs IH]; intros s H; [exact H|].
    cbn [fold_left]. apply IH. destruct e as [|r|p]; cbn [apply_event].
    - exact H.
    - unfold submit_end. destruct (acknowledged r); cbn [session_of fst].
      + now apply startPolling_single_timer.
      + now apply handlePollingError_single_timer.
    - now apply pollTick_single_timer. }
  apply G. intros i [].
Qed.

(** ** The status line *)

Lemma update_forest_app (P : node -> bool) (f : node -> list node)
  (l1 l2 : list node) :
  update_forest P f (l1 ++ l2) =
  match update_forest P f l1 with
  | Some l1' => Some (l1' ++ l2)
  | None => option_map (app l1) (update_forest P f l2)
  end.
Proof.
  induction l1 as [|x r IH]; cbn [app update_forest].
  - now destruct (update_forest P f l2).
  - destruct (update_node P f x) as [xs|]; [now rewrite app_assoc|].
    rewrite IH. destruct (update_forest P f r); [reflexivity|].
    now destruct (update_forest P f l2).
Qed.

Section StatusText.

Variable c : string.
Variables t1 t2 : string.

Local Abbreviation P := (has_class c).
Local Abbreviation f1 := (fun e : node => [set_children [Text t1] e]).
Local Abbreviation f2 := (fun e : node => [set_children [Text t2] e]).

Lemma overwrite_node (n : node) :
  match update_node P f1 n with
  | Some l => update_forest P f2 l = update_node P f2 n
              /\ update_node P f2 n <> None
  | None => update_node P f2 n = None
  end.
Proof.
  induction n as [s|s|t i cl a ch IH] using node_induction.
  - reflexivity.
  - reflexivity.
  - rewrite !update_node_elem.
    destruct (P (Elem t i cl a ch)) eqn:E.
    + split; [|discriminate]. cbn [set_children update_forest].
      rewrite update_node_elem.
      change (P (Elem t i cl a [Text t1])) with (P (Elem t i cl a ch)).
      rewrite E. reflexivity.
    + assert (F : match update_forest P f1 ch with
                  | Some ch' => update_forest P f2 ch' = update_forest P f2 ch
                                /\ update_forest P f2 ch <> None
                  | None => update_forest P f2 ch = None
                  end).
      { clear E. induction IH as [|x r Hx _ IHr]; [reflexivity|].
        cbn [update_forest].
        destruct (update_node P f1 x) as [xs|].
        - destruct Hx as [Hx1 Hx2]. rewrite update_forest_app, Hx1.
          destruct (update_node P f2 x); [split; [reflexivity|discriminate]|].
          now elim Hx2.
        - rewrite Hx. destruct (update_forest P f1 r) as [r'|].
          + destruct IHr as [H1 H2]. cbn [update_forest]. rewrite Hx, H1.
            destruct (update_forest P f2 r); [split; [reflexivity|discriminate]|].
            now elim H2.
          + now rewrite IHr. }
      destruct (update_forest P f1 ch) as [ch'|].
      * destruct F as [F1 F2]. cbn [update_forest].
        rewrite update_node_elem.
        change (P (Elem t i cl a ch')) with (P (Elem t i cl a ch)).
        rewrite E, F1.
        destruct (update_forest P f2 ch); [split; [reflexivity|discriminate]|].
        now elim F2.
      * now rewrite F.
Qed.

Lemma overwrite_forest (l : list node) :
  match update_forest P f1 l with
  | Some l' => update_forest P f2 l' = update_forest P f2 l
               /\ update_forest P f2 l <> None
  | None => update_forest P f2 l = None
  end.
Proof.
  induction l as [|x r IH]; [reflexivity|].
  cbn [update_forest]. pose proof (overwrite_node x) as Hx.
  destruct (update_node P f1 x) as [xs|].
  - destruct Hx as [Hx1 Hx2]. rewrite update_forest_app, Hx1.
    destruct (update_node P f2 x); [split; [reflexivity|discriminate]|].
    now elim Hx2.
  - rewrite Hx. destruct (update_forest P f1 r) as [r'|].
    + destruct IH as [H1 H2]. cbn [update_forest]. rewrite Hx, H1.
      destruct (update_forest P f2 r); [split; [reflexivity|discriminate]|].
      now elim H2.
    + now rewrite IH.
Qed.

End StatusText.

Lemma put_status_overwrite (t1 t2 : string) (rc : list node) :
  put_status t2 (put_status t1 rc) = put_status t2 rc.
Proof.
  unfold put_status.
  pose proof (overwrite_forest "text-purple-400" t1 t2 rc) as H.
  destruct (update_forest _ (fun e => [set_children [Text t1] e]) rc) as [l'|].
  - destruct H as [-> H].
    destruct (update_forest _ _ rc); [reflexivity|now elim H].
  - rewrite H, update_forest_app, H. reflexivity.
Qed.

Lemma update_top_classes (P : node -> bool) (ch : list node)
  (l l' : list node) :
  update_forest P (fun e => [set_children ch e]) l = Some l' ->
  map node_classes l' = map node_classes l.
Proof.
  revert l'. induction l as [|x r IH]; intros l'; cbn [update_forest];
    [discriminate|].
  destruct (update_node P _ x) as [xs|] eqn:U.
  - intros [= <-].
    assert (X : map node_classes xs = [node_classes x]).
    { destruct x as [s|s|t i cl a k].
      - cbn in U. destruct (P (Text s)); [|discriminate]. now injection U as <-.
      - cbn in U. destruct (P (Comment s)); [|discriminate]. now injection U as <-.
      - rewrite update_node_elem in U.
        destruct (P (Elem t i cl a k)); [now injection U as <-|].
        destruct (update_forest P _ k); [|discriminate]. now injection U as <-. }
    rewrite map_app, X. reflexivity.
  - destruct (update_forest P _ r) as [r'|]; [|discriminate].
    intros [= <-]. cbn [map]. now rewrite (IH r').
Qed.

Lemma existsb_has_class (c : string) (l : list node) :
  existsb (has_class c) l = existsb (mem c) (map node_classes l).
Proof. induction l as [|x r IH]; [reflexivity|]. cbn. now rewrite IH. Qed.

Lemma put_status_error_shown (t : string) (rc : list node) :
  existsb (has_class "bg-red-100") (put_status t rc)
  = existsb (has_class "bg-red-100") rc.
Proof.
  unfold put_status.
  destruct (update_forest _ _ rc) as [l'|] eqn:U.
  - rewrite !existsb_has_class. now rewrite (update_top_classes _ _ _ _ U).
  - rewrite existsb_app. cbn. now rewrite !orb_false_r.
Qed.

Lemma timeout_message (p : probe) :
  classify p = Timeout ->
  is_success_results p = false
  /\ retry_message p
     = "Still working on your strategy... This may take a few minutes.".
Proof.
  unfold is_success_results. intros E. rewrite E. split; [reflexivity|].
  destruct p as [name|code|st res ic]; cbn in *.
  - destruct (String.eqb name "TimeoutError" || String.eqb name "AbortError");
      [reflexivity|discriminate].
  - discriminate.
  - destruct (String.eqb st "success" && nonempty_array res); discriminate.
Qed.

Lemma transport_error_message (q : probe) :
  classify q = TransportError ->
  is_success_results q = false
  /\ retry_message q = "Checking strategy progress...".
Proof.
  unfold is_success_results. intros E. rewrite E. split; [reflexivity|].
  destruct q as [name|code|st res ic]; cbn in *.
  - destruct (String.eqb name "TimeoutError" || String.eqb name "AbortError");
      [discriminate|reflexivity].
  - reflexivity.
  - destruct (String.eqb st "success" && nonempty_array res); discriminate.
Qed.

Lemma retry_tick_frame (p : probe) (s : session) :
  is_success_results p = false ->
  S (retryCount s) < MAX_RETRIES ->
  timers (pollTick p s) = timers s
  /\ pollInterval (pollTick p s) = pollInterval s
  /\ spinner (pollTick p s) = spinner s
  /\ timer_live (pollTick p s) = timer_live s
  /\ error_shown (pollTick p s) = error_shown s.
Proof.
  intros E H. rewrite (retrying_tick p s E H).
  unfold timer_live, error_shown. cbn [timers pollInterval spinner resultsContent].
  repeat split. apply put_status_error_shown.
Qed.

(** C9: a probe that times out or is aborted and a probe that fails with
    another transport error both run [handlePollingError], each adding
    exactly 1 to the one retry counter; the two resulting sessions agree on
    counter, timer, handle and spinner, and their results areas become
    equal once the status text is overwritten with a common text, so the
    wording of the message is all that tells them apart; below the budget
    neither stops the timer, hides the spinner or puts up the error box. *)
Theorem C9_timeout_like_transport_error (p q : probe) (s : session) :
  classify p = Timeout ->
  classify q = TransportError ->
  (pollTick p s
     = handlePollingError
         "Still working on your strategy... This may take a few minutes." s
   /\ pollTick q s = handlePollingError "Checking strategy progress..." s)
  /\ (retryCount (pollTick p s) = S (retryCount s)
      /\ retryCount (pollTick q s) = S (retryCount s))
  /\ (timers (pollTick p s) = timers (pollTick q s)
      /\ pollInterval (pollTick p s) = pollInterval (pollTick q s)
      /\ lastTimer (pollTick p s) = lastTimer (pollTick q s)
      /\ spinner (pollTick p s) = spinner (pollTick q s))
  /\ (forall t, put_status t (resultsContent (pollTick p s))
                = put_status t (resultsContent (pollTick q s)))
  /\ (S (retryCount s) < MAX_RETRIES ->
      (timer_live (pollTick p s) = timer_live s
       /\ spinner (pollTick p s) = spinner s
       /\ error_shown (pollTick p s) = error_shown s)
      /\ (timer_live (pollTick q s) = timer_live s
          /\ spinner (pollTick q s) = spinner s
          /\ error_shown (pollTick q s) = error_shown s)).
Proof.
  intros Hp Hq.
  destruct (timeout_message p Hp) as [Ep Mp].
  destruct (transport_error_message q Hq) as [Eq Mq].
  assert (Tp := pollTick_retry p s Ep). assert (Tq := pollTick_retry q s Eq).
  rewrite Mp in Tp. rewrite Mq in Tq.
  split; [now split|].
  split; [rewrite !pollTick_retryCount, Ep, Eq; now split|].
  split; [|split].
  - rewrite Tp, Tq, !handlePollingError_eq. cbv zeta.
    destruct (Nat.leb _ _); cbn; repeat split.
  - intros t. rewrite Tp, Tq, !handlePollingError_eq. cbv zeta.
    destruct (Nat.leb _ _); cbn [resultsContent]; [reflexivity|].
    now rewrite !put_status_overwrite.
  - intros H.
    destruct (retry_tick_frame p s Ep H) as (_ & _ & A & B & C).
    destruct (retry_tick_frame q s Eq H) as (_ & _ & A' & B' & C').
    repeat split; assumption.
Qed.

(** ** Exhaustion *)

(** C5, amended: the tick that exhausts the retry budget clears the timer,
    hides the spinner and replaces the whole results area by the one box
    of [showError] holding the still-running text; no result node is left
    on display after it. *)
Theorem C5_exhaustion_replaces_results (p : probe) (s : session) :
  is_success_results p = false ->
  MAX_RETRIES <= S (retryCount s) ->
  resultsContent (pollTick p s) = [error_box exhausted_message]
  /\ error_shown (pollTick p s) = true
  /\ (forall i, getElementById i (resultsContent (pollTick p s)) = None)
  /\ In "hidden" (spinner (pollTick p s))
  /\ timer_live (pollTick p s) = false.
Proof.
  intros E H. rewrite (exhausting_tick p s E H).
  cbn [resultsContent spinner].
  split; [reflexivity|]. split; [reflexivity|]. split; [reflexivity|].
  split; [apply hidden_added|].
  now apply (clearInterval_not_live s).
Qed.

(** C5, as stated, fails: with one entry on display and nine retries
    counted, the tenth timeout removes the entry from the results area. *)
Lemma C5_counterexample :
  ~ (forall i,
       getElementById i (resultsContent nine_retries_session) <> None ->
       getElementById i
         (resultsContent (pollTick timeout_probe nine_retries_session))
       <> None).
Proof.
  intros H. apply (H "strategy-1").
  - vm_compute. discriminate.
  - vm_compute. reflexivity.
Qed.

Lemma C5_witness :
  resultsContent (pollTick timeout_probe nine_retries_session)
    = [error_box exhausted_message]
  /\ error_shown (pollTick timeout_probe nine_retries_session) = true
  /\ (forall i, getElementById i
        (resultsContent (pollTick timeout_probe nine_retries_session)) = None)
  /\ In "hidden" (spinner (pollTick timeout_probe nine_retries_session))
  /\ timer_live (pollTick timeout_probe nine_retries_session) = false.
Proof.
  apply (C5_exhaustion_replaces_results timeout_probe nine_retries_session).
  - reflexivity.
  - vm_compute. apply le_n.
Defined.



Lemma C9_witness :
  retryCount (pollTick timeout_probe one_result_session) = 1
  /\ retryCount (pollTick (HttpError 502) one_result_session) = 1
  /\ timer_live (pollTick timeout_probe one_result_session) = true
  /\ timer_live (pollTick (HttpError 502) one_result_session) = true.
Proof.
  destruct (C9_timeout_like_transport_error timeout_probe (HttpError 502)
              one_result_session eq_refl eq_refl)
    as (_ & (A & B) & _ & _ & H).
  destruct H as ((C & _) & (D & _)); [vm_compute; repeat constructor|].
  split; [exact A|split; [exact B|split; [exact C|exact D]]].
Defined.


(** ** The status line and the rendered entries *)

(** C6 fails on the code: the query [.text-purple-400] also matches the
    download links of a rendered success entry.  After one success entry
    has come in, a success+empty tick writes its status text into the
    first download link of that entry, and a success+results tick that
    carries only another entry removes that link; in both cases the node
    of [strategy-1] no longer shows the entry upserted last. *)
Theorem C6_status_query_hits_download_link :
  let shown (s : session) :=
    option_map node_children (getElementById "strategy-1" (resultsContent s)) in
  let retried := pollTick (Json "success" (Some []) false) one_result_session in
  let updated :=
    pollTick (Json "success" (Some [sample_other]) false) one_result_session in
  shown one_result_session = Some (layout_of sample_ok)
  /\ shown retried <> Some (layout_of sample_ok)
  /\ query_purple (resultsContent retried)
     = Some (Elem "a" None
               ["inline-flex"; "items-center"; "space-x-2"; "text-purple-400";
                "hover:text-purple-300"]
               [("href", "/download/strategy/strategy_1.txt")]
               [Text "Still processing your strategy... (Attempt 1/10)"])
  /\ shown updated <> Some (layout_of sample_ok)
  /\ query_purple (resultsContent updated)
     = Some (download_link "/download/backtest/backtest_1.py"
               "Download Backtest").
Proof.
  cbv zeta. split; [reflexivity|].
  split; [vm_compute; discriminate|].
  split; [reflexivity|].
  split; [vm_compute; discriminate|reflexivity].
Qed.

(** ** The phase timeline *)

Lemma mem_remove_self (c : string) (l : list string) :
  mem c (classList_remove c l) = false.
Proof.
  unfold classList_remove. induction l as [|x l IH]; [reflexivity|].
  cbn [filter]. destruct (String.eqb x c) eqn:E; cbn [negb]; [exact IH|].
  rewrite mem_cons, String.eqb_sym, E. exact IH.
Qed.

Lemma mem_remove_other (c d : string) (l : list string) :
  String.eqb d c = false -> mem d (classList_remove c l) = mem d l.
Proof.
  intros N. unfold classList_remove. induction l as [|x l IH]; [reflexivity|].
  cbn [filter]. rewrite mem_cons.
  destruct (String.eqb x c) eqn:E; cbn [negb].
  - apply String.eqb_eq in E. subst x. now rewrite N.
  - now rewrite mem_cons, IH.
Qed.

Lemma mem_add_self (c : string) (l : list string) :
  mem c (classList_add c l) = true.
Proof.
  unfold classList_add. destruct (mem c l) eqn:M; [exact M|].
  rewrite mem_app, M, mem_cons, String.eqb_refl. reflexivity.
Qed.

Lemma mem_add_other (c d : string) (l : list string) :
  String.eqb d c = false -> mem d (classList_add c l) = mem d l.
Proof.
  intros N. unfold classList_add. destruct (mem c l); [reflexivity|].
  rewrite mem_app, mem_cons, N. cbn. now rewrite orb_false_r.
Qed.

Lemma deactivate_all_classes (pg : page) (q : phase) :
  phase_panels pg ->
  pclasses (get_phase q (deactivate_all pg))
  = classList_remove "active" (pclasses (get_phase q pg)).
Proof.
  intros H. pose proof (H q) as Hq.
  destruct q; cbn in *; now rewrite Hq.
Qed.

Lemma on_phase_classes (p q : phase) (f : list string -> list string)
  (pg : page) :
  pclasses (get_phase q (on_phase p (on_classes f) pg))
  = if phase_eqb q p then f (pclasses (get_phase q pg))
    else pclasses (get_phase q pg).
Proof. destruct p, q; reflexivity. Qed.

Lemma updatePhase_classes (p q : phase) (status : string) (pg : page) :
  phase_panels pg ->
  mem "active" (pclasses (get_phase q (updatePhase p status pg)))
  = phase_eqb q p
  /\ mem "processing-phase" (pclasses (get_phase q (updatePhase p status pg)))
     = true.
Proof.
  intros H. unfold updatePhase.
  assert (A : forall c, String.eqb "active" c = false ->
                        String.eqb "processing-phase" c = false ->
    mem "active" (pclasses (get_phase q
      (on_phase p (on_classes (classList_add c))
         (on_phase p (on_classes (classList_add "active"))
            (deactivate_all pg))))) = phase_eqb q p
    /\ mem "processing-phase" (pclasses (get_phase q
      (on_phase p (on_classes (classList_add c))
         (on_phase p (on_classes (classList_add "active"))
            (deactivate_all pg))))) = true).
  { intros c N1 N2. rewrite !on_phase_classes, (deactivate_all_classes pg q H).
    destruct (phase_eqb q p).
    - rewrite (mem_add_other _ _ _ N1), mem_add_self.
      rewrite (mem_add_other _ _ _ N2), mem_add_other, mem_remove_other;
        [|reflexivity|reflexivity].
      split; [reflexivity|apply H].
    - rewrite mem_remove_self, mem_remove_other; [|reflexivity].
      split; [reflexivity|apply H]. }
  destruct (String.eqb status "complete"); [now apply A|].
  destruct (String.eqb status "error"); [now apply A|].
  rewrite !on_phase_classes, (deactivate_all_classes pg q H).
  destruct (phase_eqb q p).
  - rewrite mem_add_self, mem_add_other, mem_remove_other;
      [|reflexivity|reflexivity].
    split; [reflexivity|apply H].
  - rewrite mem_remove_self, mem_remove_other; [|reflexivity].
    split; [reflexivity|apply H].
Qed.

Lemma active_phases_one (p : phase) (pg : page) :
  (forall q, is_active q pg = phase_eqb q p) -> active_phases pg = [p].
Proof.
  intros H. unfold active_phases, all_phases. cbn [filter].
  rewrite !H. now destruct p.
Qed.

Lemma log_change_classes (p q : phase) (f : phaseEl -> list node) (pg : page) :
  pclasses (get_phase q (on_phase p (fun e => set_log (f e) e) pg))
  = pclasses (get_phase q pg).
Proof. destruct p, q; reflexivity. Qed.

(** What a step does to the [active] marks, on a page with the three
    panels. *)
Lemma exec_step_active (st : step) (pg : page) :
  phase_panels pg ->
  phase_panels (exec_step st pg)
  /\ active_phases (exec_step st pg)
     = match marks_active st with
       | p :: _ => [p]
       | [] => active_phases pg
       end.
Proof.
  intros H. destruct st as [|p|p m|p]; cbn [exec_step marks_active].
  - split; [intros q; specialize (H q); now destruct q|reflexivity].
  - split.
    + intros q. rewrite (log_change_classes p q (fun _ => [])).
      apply (updatePhase_classes p q "active" pg H).
    + apply active_phases_one. intros q. unfold is_active.
      rewrite (log_change_classes p q (fun _ => [])).
      apply (updatePhase_classes p q "active" pg H).
  - split.
    + intros q.
      rewrite (log_change_classes p q (fun e => plog e ++ [message_div m])).
      apply H.
    + unfold active_phases, is_active. cbn [all_phases filter].
      now rewrite !(log_change_classes p _ (fun e => plog e ++ [message_div m])).
  - split.
    + intros q. apply (updatePhase_classes p q "complete" pg H).
    + apply active_phases_one. intros q.
      apply (updatePhase_classes p q "complete" pg H).
Qed.

Lemma trace_active (l : list step) (pg : page) :
  phase_panels pg ->
  map active_phases (trace l pg) = active_after (active_phases pg) l.
Proof.
  revert pg. induction l as [|st r IH]; intros pg H; [reflexivity|].
  cbn [trace map active_after].
  destruct (exec_step_active st pg H) as [H' E].
  rewrite (IH _ H'), E. reflexivity.
Qed.

Lemma trace_panels (l : list step) (pg : page) :
  phase_panels pg -> Forall phase_panels (trace l pg).
Proof.
  revert pg. induction l as [|st r IH]; intros pg H; cbn [trace];
    constructor.
  - apply (exec_step_active st pg H).
  - apply IH. apply (exec_step_active st pg H).
Qed.

Lemma deactivate_all_none (pg : page) :
  phase_panels pg -> active_phases (deactivate_all pg) = [].
Proof.
  intros H. unfold active_phases, is_active. cbn [all_phases filter].
  now rewrite !(deactivate_all_classes pg _ H), !mem_remove_self.
Qed.

Lemma no_return_sound (l : list step) :
  no_return l = true ->
  forall i j p st,
    i < j -> nth_error l i = Some (Finish p) -> nth_error l j = Some st ->
    step_phase st <> Some p.
Proof.
  induction l as [|x r IH]; intros N i j p st Hij Hi Hj.
  - destruct i; discriminate.
  - cbn [no_return] in N. apply andb_prop in N as [N1 N2].
    destruct j as [|j]; [lia|]. cbn [nth_error] in Hj.
    destruct i as [|i]; cbn [nth_error] in Hi.
    + injection Hi as ->.
      apply nth_error_In in Hj.
      rewrite forallb_forall in N1. specialize (N1 st Hj).
      intros E. rewrite E in N1. now destruct p.
    + apply (IH N2 i j p st); [lia|assumption|assumption].
Qed.

Lemma marks_active_step_phase (st : step) (p : phase) :
  In p (marks_active st) -> step_phase st = Some p.
Proof. destruct st as [|q|q m|q]; cbn; intros [<-|[]] || intros []; reflexivity. Qed.

Lemma not_listed_not_active (p : phase) (pg : page) :
  ~ In p (active_phases pg) -> is_active p pg = false.
Proof.
  intros H. destruct (is_active p pg) eqn:E; [|reflexivity].
  elim H. apply filter_In. split; [destruct p; cbn; tauto|exact E].
Qed.

Lemma active_after_bound (cur : list phase) (l : list step) :
  List.length cur <= 1 ->
  Forall (fun x => List.length x <= 1) (active_after cur l).
Proof.
  revert cur. induction l as [|st r IH]; intros cur H; cbn [active_after];
    constructor.
  - destruct (marks_active st); [exact H|cbn; lia].
  - apply IH. destruct (marks_active st); [exact H|cbn; lia].
Qed.

(** C7, as stated, fails for the last part: the first run leaves the
    research panel marked [phase-complete], nothing removes that mark, and
    the next acknowledged submission marks the same panel [active] again. *)
Lemma C7_counterexample :
  let first := run_steps submit_script fresh_page in
  let second := run_steps (firstn 2 submit_script) first in
  firstn 2 submit_script = [ClearAll; Begin Research]
  /\ mem "phase-complete" (pclasses (get_phase Research first)) = true
  /\ is_active Research first = false
  /\ mem "phase-complete" (pclasses (get_phase Research second)) = true
  /\ is_active Research second = true.
Proof. repeat split. Qed.

(** C7, amended: within one run of the timeline, on a page whose three
    panels carry [processing-phase], the phases are entered in the order
    research, backtest, debug; after each step of the run exactly one panel
    carries [active], the panel of the phase the step belongs to (and none
    does between the removal and the addition inside [updatePhase]); after
    the step of the run that marks a phase complete no later step of that
    run adds [active] to that phase, whose panel is without [active] after
    every later step of the run; and whatever steps run, of one timeline or
    of several, at most one panel carries [active] after each of them if at
    most one did before. *)
Theorem C7_phase_timeline (pg : page) :
  phase_panels pg ->
  begun timeline = [Research; Backtest; Debug]
  /\ map active_phases (trace timeline pg)
     = repeat [Research] 7 ++ repeat [Backtest] 7 ++ repeat [Debug] 7
  /\ Forall (fun pg' => List.length (active_phases pg') <= 1
                        /\ active_phases (deactivate_all pg') = [])
       (trace timeline pg)
  /\ (forall i j p st,
        i < j -> nth_error timeline i = Some (Finish p) ->
        nth_error timeline j = Some st -> ~ In p (marks_active st))
  /\ (forall i j p pg',
        i < j -> nth_error timeline i = Some (Finish p) ->
        nth_error (trace timeline pg) j = Some pg' -> is_active p pg' = false)
  /\ (forall l,
        List.length (active_phases pg) <= 1 ->
        Forall (fun pg' => List.length (active_phases pg') <= 1) (trace l pg)).
Proof.
  intros H.
  assert (M : map active_phases (trace timeline pg)
              = map (fun st => match step_phase st with
                               | Some p => [p]
                               | None => []
                               end) timeline).
  { rewrite (trace_active timeline pg H). reflexivity. }
  assert (N : no_return timeline = true) by reflexivity.
  split; [reflexivity|].
  split; [rewrite M; reflexivity|].
  split; [|split; [|split]].
  - pose proof (trace_panels timeline pg H) as T.
    assert (L : Forall (fun l => List.length l <= 1)
                  (map active_phases (trace timeline pg))).
    { rewrite M. cbn. repeat constructor. }
    rewrite Forall_map in L.
    rewrite Forall_forall in *. intros pg' I.
    split; [now apply L|]. apply deactivate_all_none. now apply T.
  - intros i j p st Hij Hi Hj I.
    apply (no_return_sound timeline N i j p st Hij Hi Hj).
    now apply marks_active_step_phase.
  - intros i j p pg' Hij Hi Hj.
    apply not_listed_not_active.
    assert (E : nth_error (map active_phases (trace timeline pg)) j
                = Some (active_phases pg')) by (rewrite nth_error_map, Hj; reflexivity).
    rewrite M, nth_error_map in E.
    destruct (nth_error timeline j) as [st|] eqn:Hst; [|discriminate].
    injection E as E. rewrite <- E.
    pose proof (no_return_sound timeline N i j p st Hij Hi Hst) as X.
    destruct (step_phase st) as [q|]; [|tauto].
    intros [->|[]]. now elim X.
  - intros l B.
    pose proof (active_after_bound (active_phases pg) l B) as F.
    rewrite <- (trace_active l pg H), Forall_map in F. exact F.
Qed.

Lemma C7_witness :
  begun timeline = [Research; Backtest; Debug]
  /\ map active_phases (trace timeline fresh_page)
     = repeat [Research] 7 ++ repeat [Backtest] 7 ++ repeat [Debug] 7.
Proof.
  destruct (C7_phase_timeline fresh_page) as (A & B & _).
  - intros []; reflexivity.
  - split; [exact A|exact B].
Defined.

(** ** A run that is superseded *)

Lemma trace_length (l : list step) (pg : page) :
  List.length (trace l pg) = List.length l.
Proof.
  revert pg. induction l as [|st r IH]; intros pg; [reflexivity|].
  cbn [trace List.length]. now rewrite IH.
Qed.

Lemma Interleave_length (l1 l2 l : list step) :
  Interleave l1 l2 l -> List.length l = List.length l1 + List.length l2.
Proof. induction 1; cbn [List.length]; lia. Qed.

Lemma run_steps_snoc (l : list step) (st : step) (pg : page) :
  run_steps (l ++ [st]) pg = exec_step st (run_steps l pg).
Proof. unfold run_steps. now rewrite fold_left_app. Qed.

Lemma Emit_appends (p : phase) (m : string) (pg : page) :
  plog (get_phase p (exec_step (Emit p m) pg))
  = plog (get_phase p pg) ++ [message_div m].
Proof. destruct p; reflexivity. Qed.

Lemma updatePhase_log (p q : phase) (status : string) (pg : page) :
  plog (get_phase q (updatePhase p status pg)) = plog (get_phase q pg).
Proof.
  unfold updatePhase, deactivate_all.
  destruct (String.eqb status "complete"), (String.eqb status "error");
    destruct p, q; cbn;
    match goal with
    | |- context [mem "processing-phase" ?l] =>
        destruct (mem "processing-phase" l); reflexivity
    end.
Qed.

Lemma reset_empties (p : phase) (pg : page) :
  plog (get_phase p (run_steps (firstn 2 submit_script) pg)) = [].
Proof.
  cbn [submit_script timeline processPhase firstn app run_steps fold_left].
  cbn [exec_step].
  assert (E : forall q,
             plog (get_phase q (updatePhase Research "active"
                                  (on_all_phases (set_log []) pg))) = []).
  { intros q. rewrite updatePhase_log. now destruct q. }
  generalize dependent (updatePhase Research "active"
                          (on_all_phases (set_log []) pg)).
  intros pg' E. specialize (E p). destruct p; cbn in *; auto.
Qed.

(** C8, as stated, fails: the earlier run has put up its first research
    message when a new submission empties the containers and begins its own
    research phase; the earlier run's next wait then ends and its message
    lands in the container just emptied. *)
Lemma C8_counterexample :
  let earlier := run_steps (firstn 3 submit_script) fresh_page in
  let reset := run_steps (firstn 2 submit_script) earlier in
  let stale := nth 3 submit_script ClearAll in
  stale = Emit Research "🧮 Analyzing mathematical patterns..."
  /\ plog (researchPhase reset) = []
  /\ plog (researchPhase (exec_step stale reset))
     = [message_div "🧮 Analyzing mathematical patterns..."]
  /\ plog (researchPhase (exec_step stale reset)) <> plog (researchPhase reset).
Proof. cbv zeta. repeat split. discriminate. Qed.

(** C8, amended: when the steps of an earlier run and of a new submission
    alternate in any way, every step of both is carried out, and each
    message, of whichever run, is appended to the container of its phase
    as that container is then; a message of the earlier run whose wait
    ends right after the new submission has emptied the containers is the
    only content of the emptied container. *)
Theorem C8_superseded_run_writes (old new l : list step) (pg : page) :
  Interleave old new l ->
  List.length (trace l pg) = List.length old + List.length new
  /\ (forall l1 p m l2,
        l = l1 ++ Emit p m :: l2 ->
        plog (get_phase p (run_steps (l1 ++ [Emit p m]) pg))
        = plog (get_phase p (run_steps l1 pg)) ++ [message_div m])
  /\ (forall p m,
        plog (get_phase p
                (exec_step (Emit p m)
                   (run_steps (firstn 2 submit_script) pg)))
        = [message_div m]).
Proof.
  intros I. split; [|split].
  - rewrite trace_length. now apply Interleave_length.
  - intros l1 p m l2 _. rewrite run_steps_snoc. apply Emit_appends.
  - intros p m. now rewrite Emit_appends, reset_empties.
Qed.

Lemma C8_witness :
  List.length
    (trace [ClearAll; Begin Research; Emit Research "late"] fresh_page) = 1 + 2
  /\ plog (get_phase Research
             (exec_step (Emit Research "late")
                (run_steps (firstn 2 submit_script) fresh_page)))
     = [message_div "late"].
Proof.
  destruct (C8_superseded_run_writes
              [Emit Research "late"] [ClearAll; Begin Research]
              [ClearAll; Begin Research; Emit Research "late"] fresh_page)
    as (A & _ & B).
  - apply Interleave_right, Interleave_right, Interleave_left, Interleave_nil.
  - split; [exact A|apply B].
Defined.

(** ** Walk-throughs *)

(** Three empty answers, then one entry, then the same entry updated
    together with the completion flag. *)
Example three_empty_then_results :
  let s3 := run_ticks (repeat empty_probe 3) started_session in
  let s4 := pollTick (Json "success" (Some [sample_ok]) false) s3 in
  let s5 := pollTick (Json "success" (Some [sample_ok_updated]) true) s4 in
  (retryCount s3 = 3 /\ all_ids_forest (resultsContent s3) = []
   /\ resultsContent s3
      = [status_element "Still processing your strategy... (Attempt 3/10)"])
  /\ (retryCount s4 = 0 /\ timer_live s4 = true
      /\ map node_id (resultsContent s4) = [Some "strategy-1"])
  /\ (timer_live s5 = false /\ timers s5 = []
      /\ map node_id (resultsContent s5) = [Some "strategy-1"]
      /\ map node_children (resultsContent s5) = [layout_of sample_ok_updated]).
Proof. cbv zeta. repeat split. Qed.

(** Ten probes in a row time out. *)
Example ten_timeouts :
  let s10 := run_ticks (repeat timeout_probe 10) started_session in
  timer_live s10 = false
  /\ resultsContent s10 = [error_box exhausted_message]
  /\ all_ids_forest (resultsContent s10) = [].
Proof. cbv zeta. repeat split. Qed.

(** * Further properties of the script *)

(** ** [startPolling] and the interval timers *)

Lemma startPolling_effect (s : session) :
  single_timer s ->
  timers (startPolling s) = [S (lastTimer s)]
  /\ pollInterval (startPolling s) = Some (S (lastTimer s))
  /\ lastTimer (startPolling s) = S (lastTimer s)
  /\ resultsContent (startPolling s) = resultsContent s
  /\ spinner (startPolling s) = spinner s
  /\ retryCount (startPolling s) = retryCount s.
Proof.
  intros H. unfold startPolling.
  destruct (pollInterval s) as [[|k]|] eqn:P.
  - cbn. destruct (timers s) as [|i l] eqn:T; [repeat split|].
    destruct (H i) as [A B]; [rewrite T; now left|].
    rewrite P in A. injection A as <-. now elim B.
  - pose proof (clearInterval_single s H) as C. rewrite P in C.
    cbn in *. rewrite C. repeat split.
  - cbn. destruct (timers s) as [|i l] eqn:T; [repeat split|].
    destruct (H i) as [A _]; [rewrite T; now left|].
    rewrite P in A. discriminate A.
Qed.

(** X1: when every live timer is the one [pollInterval] holds,
    [startPolling] leaves exactly one timer live, a new one with an id never
    handed out before, stores it in [pollInterval], and touches neither the
    results area nor the spinner nor the retry counter. *)
Theorem X1_startPolling_replaces_timer (s : session) :
  single_timer s ->
  timers (startPolling s) = [S (lastTimer s)]
  /\ pollInterval (startPolling s) = Some (S (lastTimer s))
  /\ timer_live (startPolling s) = true
  /\ resultsContent (startPolling s) = resultsContent s
  /\ spinner (startPolling s) = spinner s
  /\ retryCount (startPolling s) = retryCount s.
Proof.
  intros H.
  destruct (startPolling_effect s H) as (T & P & _ & R & Sp & C).
  repeat split; try assumption.
  unfold timer_live. rewrite P, T. cbn. now rewrite Nat.eqb_refl.
Qed.

Lemma X1_witness :
  timers (startPolling started_session) = [2]
  /\ pollInterval (startPolling started_session) = Some 2
  /\ timer_live (startPolling started_session) = true
  /\ resultsContent (startPolling started_session)
     = resultsContent started_session
  /\ spinner (startPolling started_session) = spinner started_session
  /\ retryCount (startPolling started_session) = retryCount started_session.
Proof.
  apply (X1_startPolling_replaces_timer started_session).
  intros i H. vm_compute in H. destruct H as [<-|[]].
  split; [reflexivity|discriminate].
Defined.

Lemma timers_distinct_shrink (s s' : session) :
  NoDup (timers s) ->
  (timers s' = timers s
   \/ timers s' = timers (clearInterval (pollInterval s) s)) ->
  NoDup (timers s').
Proof.
  intros H [->| ->]; [exact H|].
  destruct (pollInterval s); cbn [clearInterval timers]; [|exact H].
  now apply NoDup_filter.
Qed.

Lemma session_after_distinct (evs : list event) :
  NoDup (timers (session_after evs)).
Proof.
  unfold session_after.
  assert (G : forall s, single_timer s -> NoDup (timers s) ->
                        NoDup (timers (fold_left apply_event evs s))).
  { induction evs as [|e evs IH]; intros s H D; [exact D|].
    cbn [fold_left].
    destruct e as [|r|p]; cbn [apply_event].
    - apply IH; assumption.
    - unfold submit_end. destruct (acknowledged r); cbn [session_of fst].
      + apply IH; [now apply startPolling_single_timer|].
        destruct (startPolling_effect
                    (set_resultsContent
                       (resultsContent s ++ [processing_message]) s) H)
          as (T & _).
        rewrite T. constructor; [intros []|constructor].
      + apply IH; [now apply handlePollingError_single_timer|].
        apply (timers_distinct_shrink s _ D).
        rewrite handlePollingError_eq; cbv zeta.
        destruct (Nat.leb _ _); cbn; auto.
    - apply IH; [now apply pollTick_single_timer|].
      apply (timers_distinct_shrink s _ D).
      apply (pollTick_timers p s). }
  apply G; [intros i []|constructor].
Qed.

(** X2: after any sequence of submissions, acknowledgments or failures,
    and probe results, at most one interval timer is live, and a live timer
    is the one [pollInterval] holds. *)
Theorem X2_at_most_one_timer (evs : list event) :
  List.length (timers (session_after evs)) <= 1
  /\ (forall i, In i (timers (session_after evs)) ->
                pollInterval (session_after evs) = Some i).
Proof.
  pose proof (session_after_single_timer evs) as H.
  pose proof (session_after_distinct evs) as D.
  split; [|intros i Hi; now apply H].
  destruct (timers (session_after evs)) as [|a [|b l]] eqn:T; cbn; try lia.
  exfalso.
  destruct (H a) as [A _]; [rewrite T; now left|].
  destruct (H b) as [B _]; [rewrite T; right; now left|].
  rewrite A in B. injection B as <-.
  inversion D as [|? ? N _]. apply N. now left.
Qed.

(** ** More on [updateResult] *)

Lemma classList_add_twice (c : string) (l : list string) :
  classList_add c (classList_add c l) = classList_add c l.
Proof.
  unfold classList_add at 1. now rewrite mem_add_self.
Qed.

Lemma render_twice (r : result) (x : node) : render r (render r x) = render r x.
Proof.
  unfold render. destruct (String.eqb (status r) "success");
    destruct x as [s|s|t i cl a ch]; cbn [set_children add_class];
    try reflexivity.
  now rewrite classList_add_twice.
Qed.

Lemma find_forest_app (P : node -> bool) (l1 l2 : list node) :
  find_forest P (l1 ++ l2) =
  match find_forest P l1 with
  | Some y => Some y
  | None => find_forest P l2
  end.
Proof.
  induction l1 as [|x r IH]; cbn [app find_forest]; [reflexivity|].
  destruct (find_node P x); [reflexivity|exact IH].
Qed.

Lemma find_none_update_none (P : node -> bool) (f : node -> list node)
  (n : node) :
  find_node P n = None -> update_node P f n = None.
Proof.
  induction n as [s|s|t i cl a ch IH] using node_induction.
  - cbn. now destruct (P (Text s)).
  - cbn. now destruct (P (Comment s)).
  - rewrite find_node_elem, update_node_elem.
    destruct (P (Elem t i cl a ch)); [discriminate|].
    intros F.
    assert (U : update_forest P f ch = None).
    { induction IH as [|x r Hx _ IHr]; [reflexivity|].
      cbn [find_forest] in F. cbn [update_forest].
      destruct (find_node P x) eqn:Fx; [discriminate|].
      now rewrite (Hx eq_refl), (IHr F). }
    now rewrite U.
Qed.

Lemma find_none_update_none_forest (P : node -> bool) (f : node -> list node)
  (l : list node) :
  find_forest P l = None -> update_forest P f l = None.
Proof.
  induction l as [|x r IH]; [reflexivity|].
  cbn [find_forest update_forest].
  destruct (find_node P x) eqn:Fx; [discriminate|]. intros F.
  now rewrite (find_none_update_none P f x Fx), (IH F).
Qed.

Lemma update_none_find_none (P : node -> bool) (f : node -> list node)
  (n : node) :
  update_node P f n = None -> find_node P n = None.
Proof.
  induction n as [s|s|t i cl a ch IH] using node_induction.
  - cbn. now destruct (P (Text s)).
  - cbn. now destruct (P (Comment s)).
  - rewrite find_node_elem, update_node_elem.
    destruct (P (Elem t i cl a ch)); [discriminate|].
    intros U.
    induction IH as [|x r Hx _ IHr]; [reflexivity|].
    cbn [update_forest] in U. cbn [find_forest].
    destruct (update_node P f x) eqn:Ux; [discriminate|].
    rewrite (Hx eq_refl). apply IHr.
    now destruct (update_forest P f r).
Qed.

Lemma update_none_find_none_forest (P : node -> bool) (f : node -> list node)
  (l : list node) :
  update_forest P f l = None -> find_forest P l = None.
Proof.
  induction l as [|x r IH]; [reflexivity|].
  cbn [find_forest update_forest].
  destruct (update_node P f x) eqn:Ux; [discriminate|]. intros U.
  rewrite (update_none_find_none P f x Ux). apply IH.
  now destruct (update_forest P f r).
Qed.

Lemma update_node_hit (P : node -> bool) (f : node -> list node) (n : node) :
  P n = true -> update_node P f n = Some (f n).
Proof. intros H. destruct n; cbn; now rewrite H. Qed.

Lemma find_node_hit (P : node -> bool) (n : node) :
  P n = true -> find_node P n = Some n.
Proof. intros H. destruct n; cbn; now rewrite H. Qed.

(** Replacing twice the element found under an id, when the replacement
    keeps the id. *)
Section UpdateTwice.

Variable i : string.
Variables g1 g2 g3 : node -> node.
Hypothesis keeps_id : forall n, has_id i (g1 n) = has_id i n.
Hypothesis composed : forall n, g2 (g1 n) = g3 n.

Local Abbreviation P := (has_id i).
Local Abbreviation f1 := (fun e : node => [g1 e]).
Local Abbreviation f2 := (fun e : node => [g2 e]).
Local Abbreviation f3 := (fun e : node => [g3 e]).

Lemma update_hit_twice (n : node) :
  P n = true ->
  update_forest P f2 [g1 n] = Some [g3 n].
Proof.
  intros H. cbn [update_forest].
  rewrite (update_node_hit P f2 (g1 n)); [|now rewrite keeps_id].
  now rewrite composed.
Qed.

Lemma update_twice_node (n : node) :
  match update_node P f1 n with
  | Some l => update_forest P f2 l = update_node P f3 n
              /\ update_node P f3 n <> None
  | None => update_node P f3 n = None
  end.
Proof.
  induction n as [s|s|t j cl a ch IH] using node_induction.
  - reflexivity.
  - reflexivity.
  - destruct (P (Elem t j cl a ch)) eqn:E.
    + rewrite (update_node_hit P f1 _ E), (update_node_hit P f3 _ E).
      split; [now apply update_hit_twice|discriminate].
    + rewrite !update_node_elem, E.
      assert (F : match update_forest P f1 ch with
                  | Some ch' => update_forest P f2 ch' = update_forest P f3 ch
                                /\ update_forest P f3 ch <> None
                  | None => update_forest P f3 ch = None
                  end).
      { clear E. induction IH as [|x r Hx _ IHr]; [reflexivity|].
        cbn [update_forest].
        destruct (update_node P f1 x) as [xs|] eqn:U1.
        - destruct Hx as [Hx1 Hx2]. rewrite update_forest_app, Hx1.
          destruct (update_node P f3 x); [split; [reflexivity|discriminate]|].
          now elim Hx2.
        - pose proof (find_none_update_none P f2 x
                        (update_none_find_none P f1 x U1)) as U2.
          rewrite Hx. destruct (update_forest P f1 r) as [r'|].
          + destruct IHr as [H1 H2]. cbn [update_forest]. rewrite U2, H1.
            destruct (update_forest P f3 r); [split; [reflexivity|discriminate]|].
            now elim H2.
          + now rewrite IHr. }
      destruct (update_forest P f1 ch) as [ch'|].
      * destruct F as [F1 F2]. cbn [update_forest].
        rewrite update_node_elem.
        change (P (Elem t j cl a ch')) with (P (Elem t j cl a ch)).
        rewrite E, F1.
        destruct (update_forest P f3 ch); [split; [reflexivity|discriminate]|].
        now elim F2.
      * now rewrite F.
Qed.

Lemma update_twice_forest (l : list node) :
  match update_forest P f1 l with
  | Some l' => update_forest P f2 l' = update_forest P f3 l
               /\ update_forest P f3 l <> None
  | None => update_forest P f3 l = None
  end.
Proof.
  induction l as [|x r IH]; [reflexivity|].
  cbn [update_forest]. pose proof (update_twice_node x) as Hx.
  destruct (update_node P f1 x) as [xs|] eqn:U1.
  - destruct Hx as [Hx1 Hx2]. rewrite update_forest_app, Hx1.
    destruct (update_node P f3 x); [split; [reflexivity|discriminate]|].
    now elim Hx2.
  - pose proof (find_none_update_none P f2 x
                  (update_none_find_none P f1 x U1)) as U2.
    rewrite Hx. destruct (update_forest P f1 r) as [r'|].
    + destruct IH as [H1 H2]. cbn [update_forest]. rewrite U2, H1.
      destruct (update_forest P f3 r); [split; [reflexivity|discriminate]|].
      now elim H2.
    + now rewrite IH.
Qed.

End UpdateTwice.

Lemma render_has_id (i : string) (r : result) (n : node) :
  has_id i (render r n) = has_id i n.
Proof. unfold has_id. now rewrite render_id. Qed.

Lemma updateResult_twice (r : result) (rc : list node) :
  updateResult r (updateResult r rc) = updateResult r rc.
Proof.
  assert (T : forall l l',
             update_forest (has_id (resultId r)) (fun n => [render r n]) l
             = Some l' ->
             updateResult r l' = l').
  { intros l l' U.
    pose proof (update_twice_forest (resultId r) (render r) (render r)
                  (render r) (render_has_id _ r) (render_twice r) l) as H.
    rewrite U in H. destruct H as [H _].
    unfold updateResult, getElementById.
    destruct (find_forest (has_id (resultId r)) l') eqn:F.
    - now rewrite H.
    - rewrite (find_none_update_none_forest _ _ _ F) in H. discriminate H. }
  assert (R : exists l,
             update_forest (has_id (resultId r)) (fun n => [render r n]) l
             = Some (updateResult r rc)).
  { unfold updateResult, getElementById.
    destruct (find_forest (has_id (resultId r)) rc) eqn:F.
    - destruct (update_forest (has_id (resultId r)) (fun n => [render r n]) rc)
        as [rc2|] eqn:U; [now exists rc|].
      rewrite (update_none_find_none_forest _ _ _ U) in F. discriminate F.
    - destruct (update_forest (has_id (resultId r)) (fun n => [render r n])
                  (rc ++ [new_result_element (resultId r)])) as [rc2|] eqn:U;
        [now exists (rc ++ [new_result_element (resultId r)])|].
      rewrite update_forest_app, (find_none_update_none_forest _ _ _ F) in U.
      cbn [update_forest] in U.
      rewrite update_node_hit in U; [discriminate U|].
      unfold has_id, new_result_element. cbn [node_id]. apply String.eqb_refl. }
  destruct R as [l R]. exact (T l _ R).
Qed.

(** X4: upserting the same entry twice in a row leaves the results area
    exactly as one upsert does, whatever markup the entry carries. *)
Theorem X4_upsert_idempotent (rs : list result) (r : result) :
  upserts (rs ++ [r; r]) [] = upserts (rs ++ [r]) [].
Proof.
  rewrite !upserts_app. unfold upserts at 1 3. cbn [fold_left].
  apply updateResult_twice.
Qed.

Lemma upserts_snoc (rs : list result) (r : result) :
  Forall no_ids rs ->
  upserts (rs ++ [r]) [] = upsert_top r (upserts rs []).
Proof.
  intros N. rewrite upserts_app. unfold upserts at 1. cbn [fold_left].
  apply updateResult_top. apply upserts_wf; [exact N|constructor].
Qed.



Lemma render_classes (r : result) (x : node) :
  result_node x ->
  node_classes (render r x)
  = if String.eqb (status r) "success" then node_classes x
    else classList_add "error-animation" (node_classes x).
Proof.
  intros (rid & cls & ch & -> & _). unfold render.
  destruct (String.eqb (status r) "success"); reflexivity.
Qed.

Lemma error_seen_mem (i : string) (rs : list result) :
  error_seen i rs = true -> mem i (map resultId rs) = true.
Proof.
  unfold error_seen. induction rs as [|r rs IH]; [discriminate|].
  cbn [existsb map]. rewrite mem_cons.
  destruct (String.eqb (resultId r) i) eqn:E; cbn [andb orb].
  - intros _. now rewrite String.eqb_sym, E.
  - intros H. rewrite (IH H). apply orb_true_r.
Qed.

Lemma store_classes (rs : list result) (i : string) :
  Forall no_ids rs ->
  option_map node_classes (getElementById i (upserts rs []))
  = if mem i (map resultId rs)
    then Some (node_classes (new_result_element i)
               ++ (if error_seen i rs then ["error-animation"] else []))
    else None.
Proof.
  induction rs as [|r rs IH] using rev_ind; [reflexivity|].
  intros N. apply Forall_app in N as [N Nr].
  apply Forall_cons_iff in Nr as [Nr _]. specialize (IH N).
  assert (W : store_wf (upserts rs [])) by (apply upserts_wf; [exact N|constructor]).
  rewrite (upserts_snoc rs r N), (upsert_top_find r Nr i _ W).
  rewrite map_app, mem_app. unfold error_seen in *. rewrite existsb_app.
  fold (error_seen i rs) in *. cbn [map existsb]. rewrite mem_cons, !orb_false_r.
  rewrite (String.eqb_sym i (resultId r)).
  destruct (String.eqb (resultId r) i) eqn:E; cbn [andb].
  2: { rewrite !orb_false_r. exact IH. }
  rewrite orb_true_r. cbn [option_map]. f_equal.
  assert (X : result_node (match getElementById i (upserts rs []) with
                           | Some n => n
                           | None => new_result_element i
                           end)
              /\ node_classes (match getElementById i (upserts rs []) with
                               | Some n => n
                               | None => new_result_element i
                               end)
                 = node_classes (new_result_element i)
                   ++ (if error_seen i rs then ["error-animation"] else [])).
  { destruct (getElementById i (upserts rs [])) as [n|] eqn:G.
    - split; [exact (getElementById_result_node _ _ _ W G)|].
      cbn [option_map] in IH.
      destruct (mem i (map resultId rs)); [now injection IH|discriminate].
    - split; [apply new_result_node|].
      destruct (error_seen i rs) eqn:F; [|now rewrite app_nil_r].
      apply error_seen_mem in F. rewrite F in IH. discriminate IH. }
  destruct X as [X1 X2]. rewrite (render_classes r _ X1), X2.
  destruct (String.eqb (status r) "success"); cbn [negb].
  - now rewrite orb_false_r.
  - rewrite orb_true_r. destruct (error_seen i rs); reflexivity.
Qed.



(** ** More on the status line *)

Section StatusLookup.

Variable c : string.
Variable t : string.

Local Abbreviation P := (has_class c).
Local Abbreviation f := (fun e : node => [set_children [Text t] e]).

Lemma find_after_set_node (n : node) :
  match update_node P f n with
  | Some l => exists m, find_node P n = Some m
                        /\ find_forest P l = Some (set_children [Text t] m)
                        /\ node_children (set_children [Text t] m) = [Text t]
  | None => find_node P n = None
  end.
Proof.
  induction n as [s|s|tg i cl a ch IH] using node_induction.
  - reflexivity.
  - reflexivity.
  - rewrite update_node_elem, find_node_elem.
    destruct (P (Elem tg i cl a ch)) eqn:E.
    + eexists. split; [reflexivity|]. split; [|reflexivity].
      cbn [set_children find_forest]. rewrite find_node_elem.
      change (P (Elem tg i cl a [Text t])) with (P (Elem tg i cl a ch)).
      now rewrite E.
    + assert (F : match update_forest P f ch with
                  | Some ch' =>
                      exists m, find_forest P ch = Some m
                                /\ find_forest P ch' = Some (set_children [Text t] m)
                                /\ node_children (set_children [Text t] m) = [Text t]
                  | None => find_forest P ch = None
                  end).
      { clear E. induction IH as [|x r Hx _ IHr]; [reflexivity|].
        cbn [update_forest find_forest].
        destruct (update_node P f x) as [xs|].
        - destruct Hx as (m & A & B & C). exists m. rewrite A.
          split; [reflexivity|]. split; [|exact C].
          now rewrite find_forest_app, B.
        - rewrite Hx. destruct (update_forest P f r) as [r'|]; [|exact IHr].
          destruct IHr as (m & A & B & C). exists m.
          split; [exact A|]. split; [|exact C].
          cbn [find_forest]. now rewrite Hx. }
      destruct (update_forest P f ch) as [ch'|]; [|exact F].
      destruct F as (m & A & B & C). exists m.
      split; [exact A|]. split; [|exact C].
      cbn [find_forest]. rewrite find_node_elem.
      change (P (Elem tg i cl a ch')) with (P (Elem tg i cl a ch)).
      now rewrite E, B.
Qed.

Lemma find_after_set_forest (l : list node) :
  match update_forest P f l with
  | Some l' => exists m, find_forest P l = Some m
                         /\ find_forest P l' = Some (set_children [Text t] m)
                         /\ node_children (set_children [Text t] m) = [Text t]
  | None => find_forest P l = None
  end.
Proof.
  induction l as [|x r IH]; [reflexivity|].
  cbn [update_forest find_forest]. pose proof (find_after_set_node x) as Hx.
  destruct (update_node P f x) as [xs|].
  - destruct Hx as (m & A & B & C). exists m. rewrite A.
    split; [reflexivity|]. split; [|exact C].
    now rewrite find_forest_app, B.
  - rewrite Hx. destruct (update_forest P f r) as [r'|]; [|exact IH].
    destruct IH as (m & A & B & C). exists m.
    split; [exact A|]. split; [|exact C].
    cbn [find_forest]. now rewrite Hx.
Qed.

End StatusLookup.

Lemma put_status_query (t : string) (rc : list node) :
  option_map node_children (query_purple (put_status t rc)) = Some [Text t].
Proof.
  unfold put_status, query_purple.
  pose proof (find_after_set_forest "text-purple-400" t rc) as H.
  destruct (update_forest _ _ rc) as [l'|].
  - destruct H as (m & _ & B & C). rewrite B. cbn [option_map]. now rewrite C.
  - rewrite find_forest_app, H. reflexivity.
Qed.

(** X7: after [handlePollingError] below the retry budget, the element
    that [.text-purple-400] selects in the results area holds exactly the
    message followed by the attempt number out of [MAX_RETRIES]. *)
Theorem X7_status_line_shows_attempt (m : string) (s : session) :
  S (retryCount s) < MAX_RETRIES ->
  option_map node_children
    (query_purple (resultsContent (handlePollingError m s)))
  = Some [Text (m ++ " (Attempt " ++ string_of_nat (S (retryCount s))
                  ++ "/10)")].
Proof.
  intros H. rewrite handlePollingError_eq. cbv zeta.
  apply Nat.leb_gt in H. rewrite H. cbn [resultsContent].
  apply put_status_query.
Qed.

Lemma X7_witness :
  option_map node_children
    (query_purple
       (resultsContent (handlePollingError "Checking" one_result_session)))
  = Some [Text "Checking (Attempt 1/10)"].
Proof.
  apply (X7_status_line_shows_attempt "Checking" one_result_session).
  vm_compute. repeat constructor.
Defined.

Lemma run_ticks_count (ps : list probe) (s : session) :
  forallb (fun p => negb (is_success_results p)) ps = true ->
  retryCount (run_ticks ps s) = retryCount s + List.length ps.
Proof.
  unfold run_ticks. revert s.
  induction ps as [|p ps IH]; intros s H; cbn [fold_left List.length]; [lia|].
  cbn [forallb] in H. apply andb_prop in H as [Hp Hps].
  rewrite (IH _ Hps), pollTick_retryCount.
  destruct (is_success_results p); [discriminate|lia].
Qed.

(** X8: the retry counter is not capped: after any run of ticks none of
    which is success+results it has grown by the number of ticks, past
    [MAX_RETRIES] as well. *)
Theorem X8_retry_counter_not_capped (ps : list probe) (s : session) :
  forallb (fun p => negb (is_success_results p)) ps = true ->
  retryCount (run_ticks ps s) = retryCount s + List.length ps.
Proof. apply run_ticks_count. Qed.

Lemma X8_witness :
  retryCount (run_ticks (repeat timeout_probe 12) started_session)
  = retryCount started_session + List.length (repeat timeout_probe 12).
Proof.
  apply (X8_retry_counter_not_capped (repeat timeout_probe 12) started_session).
  reflexivity.
Defined.

Lemma filter_out_twice (i : nat) (l : list nat) :
  filter (fun j => negb (Nat.eqb j i)) (filter (fun j => negb (Nat.eqb j i)) l)
  = filter (fun j => negb (Nat.eqb j i)) l.
Proof.
  induction l as [|j l IH]; [reflexivity|].
  cbn [filter]. destruct (Nat.eqb j i) eqn:E; cbn [negb filter]; [exact IH|].
  rewrite E. cbn [negb]. now rewrite IH.
Qed.

(** X9: a probe that fails after the retry budget is exhausted changes
    nothing but the retry counter: the notice, the hidden spinner and the
    cleared timer stay as the exhausting tick left them. *)
Theorem X9_late_failure_only_counts (p q : probe) (s : session) :
  is_success_results p = false ->
  is_success_results q = false ->
  MAX_RETRIES <= S (retryCount s) ->
  pollTick q (pollTick p s)
  = set_retryCount (S (S (retryCount s))) (pollTick p s).
Proof.
  intros Ep Eq H.
  rewrite (exhausting_tick p s Ep H).
  rewrite (exhausting_tick q _ Eq); cbn [retryCount]; [|lia].
  unfold set_retryCount.
  cbn [resultsContent spinner pollInterval timers lastTimer].
  rewrite classList_add_twice. f_equal.
  - unfold classList_add at 1. now rewrite mem_add_self.
  - destruct (pollInterval s) as [i|]; cbn [clearInterval timers];
      [apply filter_out_twice|reflexivity].
Qed.

Lemma X9_witness :
  pollTick (HttpError 503) (pollTick timeout_probe nine_retries_session)
  = set_retryCount (S (S (retryCount nine_retries_session)))
      (pollTick timeout_probe nine_retries_session).
Proof.
  apply (X9_late_failure_only_counts timeout_probe (HttpError 503)
           nine_retries_session).
  - reflexivity.
  - reflexivity.
  - vm_compute. apply le_n.
Defined.

(** ** Error entries and the status line *)

Lemma error_layout_no_purple (r : result) :
  no_status_class r ->
  find_forest (has_class "text-purple-400") (error_layout r) = None.
Proof. intros H. exact H. Qed.

Lemma error_render_no_purple (r : result) (x : node) :
  String.eqb (status r) "success" = false ->
  no_status_class r ->
  result_node x ->
  find_node (has_class "text-purple-400") x = None ->
  find_node (has_class "text-purple-400") (render r x) = None.
Proof.
  intros E N (rid & cls & ch & -> & _) F.
  rewrite find_node_elem in F.
  destruct (has_class "text-purple-400" (Elem "div" (Some rid) cls [] ch)) eqn:C;
    [discriminate|].
  unfold render. rewrite E. cbn [set_children add_class].
  rewrite find_node_elem.
  unfold has_class in C |- * at 1. cbn [node_classes] in *.
  rewrite mem_add_other, C; [|reflexivity].
  now apply error_layout_no_purple.
Qed.

Lemma upsert_top_no_purple (r : result) (rc : list node) :
  plain_error r ->
  store_wf rc ->
  find_forest (has_class "text-purple-400") rc = None ->
  find_forest (has_class "text-purple-400") (upsert_top r rc) = None.
Proof.
  intros (E & _ & N). apply String.eqb_neq in E.
  induction 1 as [|x t Hx Ht IH]; cbn [upsert_top find_forest].
  - intros _.
    rewrite (error_render_no_purple r _ E N (new_result_node _)); reflexivity.
  - destruct (find_node _ x) eqn:Fx; [discriminate|]. intros F.
    destruct (has_id (resultId r) x); cbn [find_forest].
    + now rewrite (error_render_no_purple r x E N Hx Fx).
    + now rewrite Fx, (IH F).
Qed.

Lemma plain_error_no_ids (rs : list result) :
  Forall plain_error rs -> Forall no_ids rs.
Proof. apply Forall_impl. now intros r (_ & N & _). Qed.

Lemma error_store_no_purple (rs : list result) :
  Forall plain_error rs ->
  find_forest (has_class "text-purple-400") (upserts rs []) = None.
Proof.
  induction rs as [|r rs IH] using rev_ind; [reflexivity|].
  intros H. apply Forall_app in H as [Hrs Hr].
  apply Forall_cons_iff in Hr as [Hr _].
  rewrite (upserts_snoc rs r (plain_error_no_ids rs Hrs)).
  apply upsert_top_no_purple.
  - exact Hr.
  - apply upserts_wf; [now apply plain_error_no_ids|constructor].
  - now apply IH.
Qed.

Lemma results_tick_content (r : result) (rs : list result) (ic : bool)
  (s : session) :
  resultsContent (pollTick (Json "success" (Some (r :: rs)) ic) s)
  = upserts (r :: rs) (remove_processing (resultsContent s)).
Proof.
  unfold pollTick.
  change (String.eqb "success" "success" && nonempty_array (Some (r :: rs)))
    with true.
  cbv iota. destruct ic; [|reflexivity].
  destruct s as [rc sp [h|] n ts lt]; reflexivity.
Qed.



(** ** More on the phase timeline *)

Lemma run_steps_app (l1 l2 : list step) (pg : page) :
  run_steps (l1 ++ l2) pg = run_steps l2 (run_steps l1 pg).
Proof. apply fold_left_app. Qed.

Lemma phase_eqb_refl (p : phase) : phase_eqb p p = true.
Proof. now destruct p. Qed.

Lemma Emit_log (p q : phase) (m : string) (pg : page) :
  plog (get_phase q (exec_step (Emit p m) pg))
  = if phase_eqb q p then plog (get_phase q pg) ++ [message_div m]
    else plog (get_phase q pg).
Proof. destruct p, q; reflexivity. Qed.

Lemma Emits_effect (p q : phase) (ms : list string) (pg : page) :
  plog (get_phase q (run_steps (map (Emit p) ms) pg))
  = (if phase_eqb q p then plog (get_phase q pg) ++ map message_div ms
     else plog (get_phase q pg))
  /\ pclasses (get_phase q (run_steps (map (Emit p) ms) pg))
     = pclasses (get_phase q pg).
Proof.
  revert pg. induction ms as [|m ms IH]; intros pg.
  - cbn. destruct (phase_eqb q p); now rewrite ?app_nil_r.
  - cbn [map run_steps fold_left].
    destruct (IH (exec_step (Emit p m) pg)) as [L C].
    unfold run_steps in L, C. rewrite L, C, Emit_log.
    split.
    + destruct (phase_eqb q p); [now rewrite <- app_assoc|reflexivity].
    + apply (log_change_classes p q (fun e => plog e ++ [message_div m])).
Qed.

Lemma Begin_log (p q : phase) (pg : page) :
  plog (get_phase q (exec_step (Begin p) pg))
  = if phase_eqb q p then [] else plog (get_phase q pg).
Proof.
  cbn [exec_step].
  pose proof (updatePhase_log p q "active" pg) as U.
  generalize dependent (updatePhase p "active" pg). intros pg' U.
  rewrite <- U. destruct p, q; reflexivity.
Qed.

Lemma complete_marks (p : phase) (pg : page) :
  mem "phase-complete" (pclasses (get_phase p (updatePhase p "complete" pg)))
  = true
  /\ mem "active" (pclasses (get_phase p (updatePhase p "complete" pg))) = true.
Proof.
  unfold updatePhase.
  change (String.eqb "complete" "complete") with true. cbv iota.
  rewrite !on_phase_classes, phase_eqb_refl.
  split; [apply mem_add_self|].
  rewrite mem_add_other; [apply mem_add_self|reflexivity].
Qed.

Lemma processPhase_effect (p : phase) (ms : list string) (pg : page) :
  (forall q,
     plog (get_phase q (run_steps (processPhase p ms) pg))
     = if phase_eqb q p then map message_div ms else plog (get_phase q pg))
  /\ mem "phase-complete"
       (pclasses (get_phase p (run_steps (processPhase p ms) pg))) = true
  /\ is_active p (run_steps (processPhase p ms) pg) = true.
Proof.
  unfold processPhase.
  change (Begin p :: map (Emit p) ms ++ [Finish p])
    with ([Begin p] ++ map (Emit p) ms ++ [Finish p]).
  rewrite !run_steps_app.
  change (run_steps [Begin p] pg) with (exec_step (Begin p) pg).
  set (pg1 := exec_step (Begin p) pg).
  set (pg2 := run_steps (map (Emit p) ms) pg1).
  change (run_steps [Finish p] pg2) with (updatePhase p "complete" pg2).
  split; [|apply complete_marks].
  intros q. rewrite updatePhase_log. unfold pg2.
  destruct (Emits_effect p q ms pg1) as [-> _]. unfold pg1.
  rewrite Begin_log. now destruct (phase_eqb q p).
Qed.

(** X11: [processPhase] for a phase and any list of messages leaves in
    the container of that phase exactly one [div] per message, in order,
    whatever the container held before; the containers of the other phases
    are as before; and the phase ends up carrying both [phase-complete] and
    [active]. *)
Theorem X11_processPhase_effect (p : phase) (ms : list string) (pg : page) :
  (forall q,
     plog (get_phase q (run_steps (processPhase p ms) pg))
     = if phase_eqb q p then map message_div ms else plog (get_phase q pg))
  /\ mem "phase-complete"
       (pclasses (get_phase p (run_steps (processPhase p ms) pg))) = true
  /\ is_active p (run_steps (processPhase p ms) pg) = true.
Proof. apply processPhase_effect. Qed.

Lemma mem_add_keeps (c d : string) (l : list string) :
  mem c l = true -> mem c (classList_add d l) = true.
Proof.
  intros H. unfold classList_add. destruct (mem d l); [exact H|].
  now rewrite mem_app, H.
Qed.

Lemma deactivate_all_classes_any (q : phase) (pg : page) :
  pclasses (get_phase q (deactivate_all pg))
  = if mem "processing-phase" (pclasses (get_phase q pg))
    then classList_remove "active" (pclasses (get_phase q pg))
    else pclasses (get_phase q pg).
Proof.
  unfold deactivate_all, on_all_phases.
  destruct q; cbn [get_phase researchPhase backtestPhase debugPhase];
    match goal with
    | |- context [mem "processing-phase" ?l] =>
        destruct (mem "processing-phase" l); reflexivity
    end.
Qed.

Lemma updatePhase_keeps_class (c : string) (p q : phase) (status : string)
  (pg : page) :
  String.eqb c "active" = false ->
  mem c (pclasses (get_phase q pg)) = true ->
  mem c (pclasses (get_phase q (updatePhase p status pg))) = true.
Proof.
  intros N H.
  assert (D : mem c (pclasses (get_phase q (deactivate_all pg))) = true).
  { rewrite deactivate_all_classes_any.
    destruct (mem "processing-phase" (pclasses (get_phase q pg)));
      [now rewrite mem_remove_other|exact H]. }
  unfold updatePhase.
  destruct (String.eqb status "complete");
    [|destruct (String.eqb status "error")];
    rewrite !on_phase_classes; destruct (phase_eqb q p);
    auto using mem_add_keeps.
Qed.

Lemma steps_keep_class (c : string) (q : phase) (l : list step) (pg : page) :
  String.eqb c "active" = false ->
  mem c (pclasses (get_phase q pg)) = true ->
  mem c (pclasses (get_phase q (run_steps l pg))) = true.
Proof.
  intros N. unfold run_steps. revert pg.
  induction l as [|st l IH]; intros pg H; [exact H|].
  cbn [fold_left]. apply IH.
  destruct st as [|p|p m|p]; cbn [exec_step].
  - now destruct q.
  - rewrite (log_change_classes p q (fun _ => [])).
    now apply updatePhase_keeps_class.
  - now rewrite (log_change_classes p q (fun e => plog e ++ [message_div m])).
  - now apply updatePhase_keeps_class.
Qed.

(** X12: no step of the script ever removes a class other than [active]
    from a phase panel: a panel that carries [phase-complete] or
    [phase-error] carries it after any further steps, of any run. *)
Theorem X12_phase_marks_are_kept (c : string) (q : phase) (l : list step)
  (pg : page) :
  c <> "active" ->
  mem c (pclasses (get_phase q pg)) = true ->
  mem c (pclasses (get_phase q (run_steps l pg))) = true.
Proof.
  intros N. apply steps_keep_class. now apply String.eqb_neq.
Qed.

Lemma X12_witness :
  mem "phase-complete"
    (pclasses (get_phase Research
                 (run_steps submit_script (run_steps submit_script fresh_page))))
  = true.
Proof.
  apply (X12_phase_marks_are_kept "phase-complete" Research submit_script
           (run_steps submit_script fresh_page)).
  - discriminate.
  - reflexivity.
Defined.

(** X13: when a submission is acknowledged after an earlier timeline has
    run to its end, the research panel is made active while it still
    carries [phase-complete] from the earlier run. *)
Theorem X13_second_run_reactivates_complete (pg : page) :
  let again := run_steps (firstn 2 submit_script) (run_steps submit_script pg) in
  is_active Research again = true
  /\ mem "phase-complete" (pclasses (get_phase Research again)) = true.
Proof.
  cbv zeta.
  set (pg1 := run_steps submit_script pg).
  assert (C : mem "phase-complete" (pclasses (get_phase Research pg1)) = true).
  { unfold pg1, submit_script, timeline.
    change (ClearAll :: ?a ++ ?b) with ((ClearAll :: a) ++ b).
    rewrite run_steps_app. apply steps_keep_class; [reflexivity|].
    change (ClearAll :: ?a) with ([ClearAll] ++ a).
    rewrite run_steps_app. apply processPhase_effect. }
  split.
  - change (firstn 2 submit_script) with ([ClearAll] ++ [Begin Research]).
    rewrite run_steps_app.
    change (run_steps [Begin Research] ?x) with (exec_step (Begin Research) x).
    cbn [exec_step]. unfold is_active.
    rewrite (log_change_classes Research Research (fun _ => [])).
    unfold updatePhase.
    change (String.eqb "active" "complete") with false.
    change (String.eqb "active" "error") with false. cbv iota.
    rewrite on_phase_classes. cbn [phase_eqb]. apply mem_add_self.
  - now apply steps_keep_class.
Qed.

(** X14: once the whole script of a submission has run on its own, each
    container holds exactly the five scripted messages of its phase, in
    order, whatever it held before; all three panels carry
    [phase-complete]; and the debug panel is left carrying [active]. *)
Theorem X14_timeline_outcome (pg : page) :
  let final := run_steps submit_script pg in
  plog (researchPhase final) = map message_div researchMessages
  /\ plog (backtestPhase final) = map message_div backtestMessages
  /\ plog (debugPhase final) = map message_div debugMessages
  /\ (forall q, mem "phase-complete" (pclasses (get_phase q final)) = true)
  /\ is_active Debug final = true.
Proof.
  cbv zeta. unfold submit_script, timeline.
  change (ClearAll :: ?a ++ ?b ++ ?c) with ([ClearAll] ++ a ++ b ++ c).
  rewrite !run_steps_app.
  set (pgA := run_steps [ClearAll] pg).
  set (pgR := run_steps (processPhase Research researchMessages) pgA).
  set (pgB := run_steps (processPhase Backtest backtestMessages) pgR).
  destruct (processPhase_effect Research researchMessages pgA) as (LR & CR & _).
  destruct (processPhase_effect Backtest backtestMessages pgR) as (LB & CB & _).
  destruct (processPhase_effect Debug debugMessages pgB) as (LD & CD & AD).
  fold pgR in LR, CR. fold pgB in LB, CB.
  split; [|split; [|split; [|split]]].
  - change (researchPhase ?x) with (get_phase Research x).
    rewrite (LD Research), (LB Research), (LR Research). reflexivity.
  - change (backtestPhase ?x) with (get_phase Backtest x).
    rewrite (LD Backtest), (LB Backtest). reflexivity.
  - change (debugPhase ?x) with (get_phase Debug x).
    rewrite (LD Debug). reflexivity.
  - intros [| |].
    + apply steps_keep_class; [reflexivity|].
      unfold pgB. now apply steps_keep_class.
    + now apply steps_keep_class.
    + exact CD.
  - exact AD.
Qed.

(** ** [cycleMessages] *)

Lemma cycle_index (ms : list string) (k : nat) (ch : list node)
  (cl : list string) :
  ms <> [] ->
  cindex (cycle_ticks k ms (cycle_start ch cl))
  = Some (k mod List.length ms).
Proof.
  intros N. destruct ms as [|m0 ms]; [now elim N|].
  induction k as [|k IH].
  - cbn [cycle_ticks cycle_start cindex]. now rewrite Nat.Div0.mod_0_l.
  - cbn [cycle_ticks]. unfold cycle_tick at 1. cbn [cindex]. rewrite IH.
    cbn [List.length]. f_equal.
    rewrite Nat.Div0.add_mod_idemp_l. f_equal. lia.
Qed.

Lemma remove_after_readd (c : string) (l : list string) :
  classList_remove c (classList_add c (classList_remove c l))
  = classList_remove c l.
Proof.
  unfold classList_add. rewrite mem_remove_self.
  unfold classList_remove. rewrite filter_app. cbn [filter].
  rewrite String.eqb_refl. cbn [negb]. rewrite app_nil_r.
  induction l as [|x l IH]; [reflexivity|].
  cbn [filter]. destruct (String.eqb x c) eqn:E; cbn [negb filter]; [exact IH|].
  rewrite E. cbn [negb]. now rewrite IH.
Qed.

Lemma cycle_classes (ms : list string) (k : nat) (ch : list node)
  (cl : list string) :
  cclasses (cycle_ticks (S k) ms (cycle_start ch cl))
  = classList_add "fun-message" (classList_remove "fun-message" cl).
Proof.
  induction k as [|k IH]; [reflexivity|].
  change (cycle_ticks (S (S k)) ms (cycle_start ch cl))
    with (cycle_tick ms (cycle_ticks (S k) ms (cycle_start ch cl))).
  unfold cycle_tick at 1. cbn [cclasses]. rewrite IH.
  now rewrite remove_after_readd.
Qed.

(** X15: for a non-empty list of messages, the callback of
    [cycleMessages] shows on its [k+1]-th run the message at position
    [k mod length], so the display repeats with the length of the list as
    its period and [index] stays within the list; from the first run on the
    element carries [fun-message] exactly once, as its last class, and its
    other classes are kept. *)
Theorem X15_cycleMessages_period (ms : list string) (k : nat)
  (ch : list node) (cl : list string) :
  ms <> [] ->
  let n := List.length ms in
  let at_run j := cycle_ticks j ms (cycle_start ch cl) in
  cindex (at_run k) = Some (k mod n)
  /\ k mod n < n
  /\ ctext (at_run (S k)) = txt (nth (k mod n) ms "")
  /\ ctext (at_run (S (k + n))) = ctext (at_run (S k))
  /\ cclasses (at_run (S k))
     = classList_remove "fun-message" cl ++ ["fun-message"].
Proof.
  intros N n at_run. subst at_run.
  assert (Z : n <> 0) by (subst n; destruct ms; [now elim N|discriminate]).
  assert (B : forall j, j mod n < n) by (intros j; now apply Nat.mod_upper_bound).
  assert (T : forall j, ctext (cycle_ticks (S j) ms (cycle_start ch cl))
                        = txt (nth (j mod n) ms "")).
  { intros j. cbn [cycle_ticks]. unfold cycle_tick at 1. cbn [ctext].
    rewrite (cycle_index ms j ch cl N). fold n.
    now rewrite (nth_error_nth' ms "" (B j)). }
  split; [now apply cycle_index|]. split; [apply B|]. split; [apply T|].
  split.
  - rewrite !T. do 2 f_equal.
    rewrite <- (Nat.Div0.add_mod_idemp_r k n n), Nat.Div0.mod_same.
    now rewrite Nat.add_0_r.
  - rewrite cycle_classes. unfold classList_add.
    now rewrite mem_remove_self.
Qed.

Lemma X15_witness :
  cindex (cycle_ticks 23 funMessages (cycle_start [] [])) = Some 3
  /\ ctext (cycle_ticks 24 funMessages (cycle_start [] []))
     = [Text "💫 Discovering hidden patterns in the market..."].
Proof.
  destruct (X15_cycleMessages_period funMessages 23 [] []) as (A & _ & B & _).
  - discriminate.
  - split; [exact A|exact B].
Defined.

(** ** [copyToClipboard] *)

Lemma append_empty (s : string) : String.append s "" = s.
Proof. induction s as [|a s IH]; [reflexivity|]. cbn. now rewrite IH. Qed.

Lemma textContent_elem t i c a ch :
  textContent (Elem t i c a ch) = forest_text ch.
Proof.
  cbn [textContent].
  induction ch as [|x r IH]; cbn [forest_text]; [reflexivity|].
  now rewrite IH.
Qed.

Lemma select_all_elem P t i c a ch :
  select_all P (Elem t i c a ch)
  = (if P (Elem t i c a ch) then [Elem t i c a ch] else [])
      ++ select_all_forest P ch.
Proof.
  cbn [select_all]. f_equal.
  induction ch as [|x r IH]; cbn [select_all_forest]; [reflexivity|].
  now rewrite IH.
Qed.

Lemma select_all_self (P : node -> bool) (n : node) :
  P n = true -> In n (select_all P n).
Proof. intros H. destruct n; cbn [select_all]; rewrite H; now left. Qed.

Lemma select_all_child (P : node -> bool) t i c a ch (n : node) :
  In n (select_all_forest P ch) -> In n (select_all P (Elem t i c a ch)).
Proof. intros H. rewrite select_all_elem. apply in_or_app. now right. Qed.

Lemma select_all_member (P : node -> bool) (l : list node) (x n : node) :
  In x l -> In n (select_all P x) -> In n (select_all_forest P l).
Proof.
  induction l as [|y l IH]; [intros []|].
  intros [->|H] Hn; cbn [select_all_forest]; apply in_or_app;
    [now left|right; now apply IH].
Qed.

Lemma code_block_selected (r : result) (c : list node) (title : string) :
  In (Elem "div" None ["mb-6"] []
        [Elem "h4" None ["text-lg"; "font-semibold"; "mb-2"] [] [Text title];
         code_block c])
     (success_layout r) ->
  In (code_block c)
     (select_all_forest (has_class "code-block") (success_layout r)).
Proof.
  intros H. apply (select_all_member _ _ _ _ H).
  apply select_all_child.
  apply (select_all_member _ _ (code_block c)); [right; now left|].
  now apply select_all_self.
Qed.

(** X16: the text [copyToClipboard] reads for a copy button of the
    template is the text content of the [code] element beside it, whatever
    markup that content holds: for the two code blocks of a success entry,
    which [.code-block] selects in its layout, it is the joined text of the
    nodes the parser built for the strategy and for the backtest (after it
    decoded character references and normalised line breaks, so not always
    the string the server sent), and when those nodes are a single text
    node, the text of that node. *)
Theorem X16_copy_reads_payload (r : result) :
  copy_text (code_block (strategy r)) = Some (forest_text (strategy r))
  /\ copy_text (code_block (backtest r)) = Some (forest_text (backtest r))
  /\ In (code_block (strategy r))
       (select_all_forest (has_class "code-block") (success_layout r))
  /\ In (code_block (backtest r))
       (select_all_forest (has_class "code-block") (success_layout r))
  /\ (forall c, In copy_button (node_children (code_block c)))
  /\ (forall s, forest_text (txt s) = s).
Proof.
  assert (T : forall c, copy_text (code_block c) = Some (forest_text c)).
  { intros c. unfold copy_text, code_block. cbn [node_children find_forest].
    rewrite find_node_elem.
    change (has_tag "code" (Elem "pre" None [] [] [Elem "code" None [] [] c]))
      with false.
    cbv iota. cbn [find_forest]. rewrite find_node_elem.
    change (has_tag "code" (Elem "code" None [] [] c)) with true.
    cbv iota. cbn [option_map]. now rewrite textContent_elem. }
  split; [apply T|]. split; [apply T|].
  split; [|split; [|split]].
  - apply (code_block_selected r _ "🎯 Strategy Analysis").
    unfold success_layout. cbn [In]. tauto.
  - apply (code_block_selected r _ "📈 Backtest Implementation").
    unfold success_layout. cbn [In]. tauto.
  - intros c. cbn. tauto.
  - intros s. unfold txt. destruct (String.eqb s "") eqn:E.
    + apply String.eqb_eq in E. now subst s.
    + cbn. apply append_empty.
Qed.

Lemma remove_absent (c : string) (l : list string) :
  mem c l = false -> classList_remove c l = l.
Proof.
  unfold classList_remove. induction l as [|x l IH]; [reflexivity|].
  rewrite mem_cons. intros H. apply orb_false_elim in H as [Hx Hl].
  cbn [filter]. rewrite String.eqb_sym, Hx. cbn [negb]. now rewrite IH.
Qed.

Lemma remove_added (c : string) (l : list string) :
  classList_remove c (classList_add c l) = classList_remove c l.
Proof.
  unfold classList_add. destruct (mem c l); [reflexivity|].
  unfold classList_remove. rewrite filter_app. cbn [filter].
  rewrite String.eqb_refl. cbn [negb]. apply app_nil_r.
Qed.

(** X17: a copy that works, on a button with no feedback pending, shows
    the check icon with [text-green-500], and the timer then puts back the
    content the button had and takes [text-green-500] away: a button that
    did not carry that class is exactly as before. *)
Theorem X17_copy_feedback_restores (f : feedback) :
  fpending f = [] ->
  let shown := copy_step f WriteResolved in
  let after := copy_step shown TimerFired in
  fchildren shown = [check_icon]
  /\ mem "text-green-500" (fclasses shown) = true
  /\ fchildren after = fchildren f
  /\ fclasses after = classList_remove "text-green-500" (fclasses f)
  /\ fpending after = []
  /\ (mem "text-green-500" (fclasses f) = false -> after = f).
Proof.
  destruct f as [ch cl pd]. cbn [fpending]. intros ->. cbv zeta.
  cbn [copy_step fchildren fclasses fpending app].
  split; [reflexivity|]. split; [apply mem_add_self|].
  split; [reflexivity|]. split; [apply remove_added|].
  split; [reflexivity|].
  intros M. now rewrite remove_added, (remove_absent _ _ M).
Qed.

Lemma X17_witness :
  copy_step (copy_step rest_button WriteResolved) TimerFired = rest_button.
Proof.
  destruct (X17_copy_feedback_restores rest_button eq_refl)
    as (_ & _ & _ & _ & _ & H).
  apply H. reflexivity.
Defined.

(** X18: a copy that fails, on a button with no feedback pending, shows
    the times icon with [text-red-500], and the timer then sets the copy
    icon, whatever the button held before, and takes [text-red-500] away. *)
Theorem X18_copy_failure_feedback (f : feedback) :
  fpending f = [] ->
  let shown := copy_step f WriteRejected in
  let after := copy_step shown TimerFired in
  fchildren shown = [times_icon]
  /\ mem "text-red-500" (fclasses shown) = true
  /\ fchildren after = [copy_icon]
  /\ fclasses after = classList_remove "text-red-500" (fclasses f)
  /\ fpending after = [].
Proof.
  destruct f as [ch cl pd]. cbn [fpending]. intros ->. cbv zeta.
  cbn [copy_step fchildren fclasses fpending app].
  split; [reflexivity|]. split; [apply mem_add_self|].
  split; [reflexivity|]. split; [apply remove_added|reflexivity].
Qed.

Lemma X18_witness :
  fchildren (copy_step (copy_step rest_button WriteRejected) TimerFired)
  = [copy_icon].
Proof.
  destruct (X18_copy_failure_feedback rest_button eq_refl) as (_ & _ & H & _).
  exact H.
Defined.

(** X19: when a second copy works before the timer of the first feedback
    has fired, the content it remembers is the feedback icon of the first,
    and once both timers have fired the button is left showing that icon
    (the check icon after a copy that worked, the times icon after one that
    failed), not what it held at rest. *)
Theorem X19_second_copy_keeps_feedback_icon (f : feedback) :
  fpending f = [] ->
  fchildren (copy_run [WriteResolved; WriteResolved; TimerFired; TimerFired] f)
  = [check_icon]
  /\ fchildren (copy_run [WriteRejected; WriteResolved; TimerFired; TimerFired] f)
     = [times_icon]
  /\ fpending (copy_run [WriteResolved; WriteResolved; TimerFired; TimerFired] f)
     = []
  /\ fpending (copy_run [WriteRejected; WriteResolved; TimerFired; TimerFired] f)
     = [].
Proof.
  destruct f as [ch cl pd]. cbn [fpending]. intros ->.
  repeat split.
Qed.

Lemma X19_witness :
  fchildren
    (copy_run [WriteResolved; WriteResolved; TimerFired; TimerFired] rest_button)
  = [check_icon].
Proof.
  destruct (X19_second_copy_keeps_feedback_icon rest_button eq_refl) as (H & _).
  exact H.
Defined.

(** ** What ticks never do *)

Lemma pollTick_no_new_timer (p : probe) (s : session) (i : nat) :
  In i (timers (pollTick p s)) -> In i (timers s).
Proof.
  destruct (pollTick_timers p s) as (_ & _ & [-> | ->]); [tauto|].
  destruct (pollInterval s); cbn [clearInterval timers]; [|tauto].
  intros H. apply filter_In in H. tauto.
Qed.

(** X20: ticks never start a timer: after any run of ticks every live
    timer was live before, the handle in [pollInterval] and the last id
    handed out are unchanged, and a session whose timer is cleared stays
    cleared. *)
Theorem X20_ticks_never_start_polling (ps : list probe) (s : session) :
  (forall i, In i (timers (run_ticks ps s)) -> In i (timers s))
  /\ pollInterval (run_ticks ps s) = pollInterval s
  /\ lastTimer (run_ticks ps s) = lastTimer s
  /\ (timer_live s = false -> timer_live (run_ticks ps s) = false).
Proof.
  unfold run_ticks. revert s.
  induction ps as [|p ps IH]; intros s; cbn [fold_left]; [tauto|].
  destruct (IH (pollTick p s)) as (A & B & C & D).
  destruct (pollTick_timers p s) as (P & L & _).
  split; [|split; [|split]].
  - intros i H. apply (pollTick_no_new_timer p s). now apply A.
  - now rewrite B.
  - now rewrite C.
  - intros H. apply D. now apply pollTick_stays_cleared.
Qed.

Lemma X20_witness :
  timer_live
    (run_ticks [Json "success" (Some [sample_ok]) false; timeout_probe]
       (pollTick timeout_probe nine_retries_session)) = false.
Proof.
  destruct (X20_ticks_never_start_polling
              [Json "success" (Some [sample_ok]) false; timeout_probe]
              (pollTick timeout_probe nine_retries_session))
    as (_ & _ & _ & H).
  apply H. reflexivity.
Defined.



(** ** A submission that is not acknowledged *)

Lemma leb_max_false (n : nat) : n < MAX_RETRIES -> Nat.leb MAX_RETRIES n = false.
Proof. intros H. apply Nat.leb_gt. exact H. Qed.

Lemma leb_max_true (n : nat) : MAX_RETRIES <= n -> Nat.leb MAX_RETRIES n = true.
Proof. intros H. apply Nat.leb_le. exact H. Qed.

Lemma clearInterval_timers_incl (h : option nat) (s : session) (i : nat) :
  In i (timers (clearInterval h s)) -> In i (timers s).
Proof.
  destruct h as [k|]; cbn [clearInterval timers]; [|auto].
  intros H. apply filter_In in H. tauto.
Qed.

(** C4, as stated, fails: on the freshly loaded page, where no timer is
    live and so no callback runs while the request is pending, a
    non-success acknowledgment leaves the status line of attempt 1 in the
    results area, no error box, and the spinner on display. *)
Lemma C4_counterexample :
  let s := submit_begin fresh_session in
  let out := submit_end (SubmitJson "error" "quota exceeded") s fresh_page in
  timers s = []
  /\ resultsContent (session_of out)
     = [status_element "Starting strategy processing... (Attempt 1/10)"]
  /\ error_shown (session_of out) = false
  /\ spinner (session_of out) = [].
Proof. repeat split. Qed.

(** C4, amended: when the request of a submission ends in a transport
    failure or a non-success acknowledgment, whatever the session has
    become while the request was pending, the listener starts no timer
    and no phase step and leaves the phase panels as they are;
    [handlePollingError] counts the failure as one more retry.  While the
    counter stays below [MAX_RETRIES] the element the status query finds
    in the results area reads
    [Starting strategy processing... (Attempt n/10)] with [n] the new
    counter, the error box is on display only if it was before, and the
    timers and the spinner are as they were; when the counter reaches
    [MAX_RETRIES] the results area is the notice of exhaustion.  When no
    callback has run since the listener reset the page, [n] is 1 and the
    status line is all the results area holds. *)
Theorem C4_failed_submit (r : reply) (s : session) (pg : page) :
  acknowledged r = false ->
  let out := submit_end r s pg in
  pending_of out = []
  /\ page_of out = pg
  /\ (forall i, In i (timers (session_of out)) -> In i (timers s))
  /\ pollInterval (session_of out) = pollInterval s
  /\ lastTimer (session_of out) = lastTimer s
  /\ retryCount (session_of out) = S (retryCount s)
  /\ (S (retryCount s) < MAX_RETRIES ->
        option_map node_children (query_purple (resultsContent (session_of out)))
        = Some [Text ("Starting strategy processing... (Attempt "
                        ++ string_of_nat (S (retryCount s)) ++ "/10)")]
        /\ error_shown (session_of out) = error_shown s
        /\ timers (session_of out) = timers s
        /\ spinner (session_of out) = spinner s)
  /\ (MAX_RETRIES <= S (retryCount s) ->
        resultsContent (session_of out) = [error_box exhausted_message])
  /\ (forall s0, s = submit_begin s0 ->
        retryCount (session_of out) = 1
        /\ resultsContent (session_of out)
           = [status_element "Starting strategy processing... (Attempt 1/10)"]
        /\ error_shown (session_of out) = false
        /\ mem "hidden" (spinner (session_of out)) = false).
Proof.
  intros A out. subst out. unfold submit_end. rewrite A.
  unfold session_of, page_of, pending_of. cbn [fst snd].
  rewrite handlePollingError_eq. cbv zeta.
  split; [reflexivity|]. split; [reflexivity|].
  split; [|split; [|split; [|split; [|split; [|split]]]]].
  - intros i. destruct (Nat.leb MAX_RETRIES (S (retryCount s)));
      cbn [timers]; [apply clearInterval_timers_incl|auto].
  - destruct (Nat.leb MAX_RETRIES (S (retryCount s))); reflexivity.
  - destruct (Nat.leb MAX_RETRIES (S (retryCount s))); reflexivity.
  - destruct (Nat.leb MAX_RETRIES (S (retryCount s))); reflexivity.
  - intros L. rewrite (leb_max_false _ L).
    cbn [resultsContent timers spinner]. unfold error_shown.
    cbn [resultsContent]. rewrite put_status_query, put_status_error_shown.
    repeat split.
  - intros L. rewrite (leb_max_true _ L). reflexivity.
  - intros s0 ->.
    cbn [submit_begin set_retryCount set_spinner set_resultsContent
         retryCount resultsContent spinner].
    change (Nat.leb MAX_RETRIES 1) with false. cbv iota.
    cbn [retryCount resultsContent spinner].
    split; [reflexivity|]. split; [reflexivity|].
    split; [reflexivity|]. apply mem_remove_self.
Qed.

Lemma C4_witness :
  let s := pollTick timeout_probe (submit_begin one_result_session) in
  let out := submit_end (SubmitHttpError 500) s fresh_page in
  pending_of out = []
  /\ page_of out = fresh_page
  /\ retryCount (session_of out) = 2
  /\ option_map node_children (query_purple (resultsContent (session_of out)))
     = Some [Text "Starting strategy processing... (Attempt 2/10)"]
  /\ error_shown (session_of out) = false
  /\ timers (session_of out) = [1].
Proof.
  destruct (C4_failed_submit (SubmitHttpError 500)
              (pollTick timeout_probe (submit_begin one_result_session))
              fresh_page) as (A & B & _ & _ & _ & C & D & _).
  - reflexivity.
  - destruct D as (D1 & D2 & D3 & _); [vm_compute; repeat constructor|].
    split; [exact A|]. split; [exact B|]. split; [exact C|].
    split; [exact D1|]. split; [exact D2|exact D3].
Defined.

(** ** An acknowledged submission *)

(** X3: when the request of a submission ends in a success
    acknowledgment, on a session whose only live timer is the one
    [pollInterval] holds, the listener appends the processing message to
    what the results area then holds, leaves the spinner and the retry
    counter as they then are, leaves exactly one (new) timer live, empties
    the three message containers, and has entered the research phase with
    the rest of the timeline, twenty steps, still to run.  When no callback
    has run since the listener reset the page, the processing message is
    alone in the results area, the spinner is on display and the counter
    is 0. *)
Theorem X3_acknowledged_submit (r : reply) (s : session) (pg : page) :
  acknowledged r = true ->
  single_timer s ->
  let out := submit_end r s pg in
  resultsContent (session_of out) = resultsContent s ++ [processing_message]
  /\ retryCount (session_of out) = retryCount s
  /\ spinner (session_of out) = spinner s
  /\ timers (session_of out) = [S (lastTimer s)]
  /\ timer_live (session_of out) = true
  /\ (forall p, plog (get_phase p (page_of out)) = [])
  /\ is_active Research (page_of out) = true
  /\ submit_script = firstn 2 submit_script ++ pending_of out
  /\ List.length (pending_of out) = 20
  /\ (forall s0, s = submit_begin s0 ->
        resultsContent (session_of out) = [processing_message]
        /\ retryCount (session_of out) = 0
        /\ mem "hidden" (spinner (session_of out)) = false).
Proof.
  intros A H out. subst out. unfold submit_end. rewrite A.
  unfold session_of, page_of, pending_of. cbn [fst snd].
  assert (H1 : single_timer
                 (set_resultsContent (resultsContent s ++ [processing_message]) s))
    by exact H.
  destruct (startPolling_effect _ H1) as (T & P & _ & R & Sp & C).
  cbn [set_resultsContent resultsContent spinner retryCount lastTimer]
    in T, P, R, Sp, C.
  rewrite R, C, Sp, T. unfold timer_live. rewrite P, T.
  split; [reflexivity|]. split; [reflexivity|]. split; [reflexivity|].
  split; [reflexivity|].
  split; [cbn; now rewrite Nat.eqb_refl|].
  split; [intros p; apply reset_empties|].
  split; [|split; [reflexivity|split; [reflexivity|]]].
  - cbn [submit_script timeline processPhase firstn app run_steps fold_left].
    cbn [exec_step]. unfold is_active.
    rewrite (log_change_classes Research Research (fun _ => [])).
    unfold updatePhase. cbn [String.eqb Ascii.eqb Bool.eqb].
    rewrite on_phase_classes. cbn [phase_eqb]. apply mem_add_self.
  - intros s0 ->. cbn [submit_begin set_retryCount set_spinner
      set_resultsContent resultsContent spinner retryCount app].
    split; [reflexivity|]. split; [reflexivity|]. apply mem_remove_self.
Qed.

Lemma X3_witness :
  let s := pollTick timeout_probe (submit_begin nine_retries_session) in
  let out := submit_end (SubmitJson "success" "") s fresh_page in
  resultsContent (session_of out)
  = [status_element
       "Still working on your strategy... This may take a few minutes. (Attempt 1/10)";
     processing_message]
  /\ retryCount (session_of out) = 1
  /\ timers (session_of out) = [2].
Proof.
  destruct (X3_acknowledged_submit (SubmitJson "success" "")
              (pollTick timeout_probe (submit_begin nine_retries_session))
              fresh_page) as (A & B & _ & C & _).
  - reflexivity.
  - intros i H. vm_compute in H. destruct H as [<-|[]].
    split; [reflexivity|discriminate].
  - split; [exact A|split; [exact B|exact C]].
Defined.
